(** * A shallow embedding of vi_project

    Sources: [yf_pull_iv_data.py] (the batch fetch-validate pipeline),
    [yf_pull_iv_data_lai.py] (the single-ticker "lai" variant) and
    [split_csv.py] (the batch splitter).

    The market-data provider (yfinance) is external: every provider call
    is modelled by the response it returns, [None] standing for a call
    that raises.  Floating-point numbers are modelled by the exact
    rational value of the double, plus the two non-finite kinds. *)

From stdpp Require Import base gmap strings list pretty.
From Stdlib Require Import QArith ZArith Ascii.

Close Scope Q_scope.
Open Scope string_scope.

(* ================================================================== *)
(** ** Python values *)

(** A Python / numpy float: a finite value (its exact rational value),
    an infinity (with its sign) or NaN. *)
Inductive Float :=
| Fin (q : Q)
| Inf (neg : bool)
| NaN.

(** The values a metric can hold: [None], a Python [int], a float
    ([float] or [numpy.float64], which is a subclass of [float]) or a
    string. *)
Inductive PyVal :=
| PNone
| PInt (z : Z)
| PFloat (f : Float)
| PStr (s : string).

(** [isinstance(x, (int, float))] *)
Definition is_int_or_float (v : PyVal) : bool :=
  match v with
  | PInt _ | PFloat _ => true
  | _ => false
  end.

(** Python's [round(x, 2)] on the exact value of a float: round-half-even
    of [100 * x] to an integer, divided by 100.  [round] leaves
    infinities and NaN unchanged. *)
Definition round_half_even_100 (q : Q) : Z :=
  let x := (100 * Qnum q)%Z in
  let d := Zpos (Qden q) in
  let fl := (x / d)%Z in
  let r := (x mod d)%Z in
  match Z.compare (2 * r) d with
  | Lt => fl
  | Gt => (fl + 1)%Z
  | Eq => if Z.even fl then fl else (fl + 1)%Z
  end.

(** The finite case gives the decimal [r / 100] exactly; Python returns
    the double nearest to it, which this model does not round to. *)
Definition round2_float (f : Float) : Float :=
  match f with
  | Fin q => Fin (round_half_even_100 q # 100)
  | other => other
  end.

(** [round(x, 2)]: an [int] is returned unchanged. *)
Definition py_round2 (v : PyVal) : PyVal :=
  match v with
  | PInt z => PInt z
  | PFloat f => PFloat (round2_float f)
  | other => other
  end.

(** The post-processing lambda of both variants:
    [lambda x: round(x, 2) if isinstance(x, (int, float)) else x]. *)
Definition round_metric (x : PyVal) : PyVal :=
  if is_int_or_float x then py_round2 x else x.

(* ================================================================== *)
(** ** Ticker classifier *)

Definition SUPPORTED_SUFFIXES : list string :=
  [".HK"; ".SS"; ".SZ"; ".KS"; ".T"; ".L"; ".AX"; ".TO";
   ".V"; ".SI"; ".NZ"; ".MI"; ".PA"; ".F"; ".DE"; ".ST";
   ".HE"; ".SW"; ".MC"; ""].

(** [str.endswith] *)
Definition endswith (s suffix : string) : bool :=
  let n := String.length s in
  let m := String.length suffix in
  (m <=? n)%nat && String.eqb (String.substring (n - m) m s) suffix.

(** [any(ticker.endswith(suffix) for suffix in SUPPORTED_SUFFIXES)] *)
Definition is_supported_ticker (ticker : string) : bool :=
  existsb (endswith ticker) SUPPORTED_SUFFIXES.

(* ================================================================== *)
(** ** The provider and the extraction monad *)

Definition Date : Type := (Z * Z * Z)%type.
Definition year (d : Date) : Z := fst (fst d).

(** A financial statement: each row label with the value of its most
    recent column ([df.loc[label].iloc[0]]). *)
Definition Stmt : Type := list (string * PyVal).
(** The quote-info dictionary. *)
Definition Info : Type := list (string * PyVal).
(** A row of the price history: its date and its [Close] value. *)
Definition HistRow : Type := (Date * PyVal)%type.

(** The responses of one [yf.Ticker] object; [None] is a call that
    raises.  The history is queried by window [start], [end]. *)
Record Provider := {
  p_financials : option Stmt;
  p_balance_sheet : option Stmt;
  p_cashflow : option Stmt;
  p_info : option Info;
  p_history : Date -> Date -> option (list HistRow)
}.

(** The provider calls, in the order they are issued. *)
Inductive Call :=
| CFinancials
| CBalanceSheet
| CCashflow
| CInfo
| CHistory (start end_ : Date).

(** Extraction code: it records the provider calls it issues and may
    raise ([None]). *)
Definition Fetch (A : Type) : Type := list Call -> list Call * option A.

Definition fret {A} (a : A) : Fetch A := fun tr => (tr, Some a).
Definition fbind {A B} (m : Fetch A) (k : A -> Fetch B) : Fetch B :=
  fun tr => match m tr with
            | (tr', Some a) => k a tr'
            | (tr', None) => (tr', None)
            end.
(** A computation that may raise but issues no call. *)
Definition flift {A} (o : option A) : Fetch A := fun tr => (tr, o).
(** A provider call and its response. *)
Definition call {A} (c : Call) (r : option A) : Fetch A :=
  fun tr => (app tr [c], r).

Global Instance fetch_ret : MRet Fetch := @fret.
Global Instance fetch_bind : MBind Fetch := fun A B k m => fbind m k.

Fixpoint assoc (k : string) (l : list (string * PyVal)) : option PyVal :=
  match l with
  | [] => None
  | (k', v) :: l' => if String.eqb k k' then Some v else assoc k l'
  end.

(** [info.get(key, None)] *)
Definition info_get (info : Info) (key : string) : PyVal :=
  match assoc key info with Some v => v | None => PNone end.

(** [stmt.loc[label].iloc[0] if label in stmt.index else default] *)
Definition stmt_get (stmt : Stmt) (label : string) (default : PyVal) : PyVal :=
  match assoc label stmt with Some v => v | None => default end.

Definition is_none (v : PyVal) : bool :=
  match v with PNone => true | _ => false end.

Definition to_float (v : PyVal) : option Float :=
  match v with
  | PInt z => Some (Fin (inject_Z z))
  | PFloat f => Some f
  | _ => None
  end.

(** IEEE division of [numpy.float64]: no exception on a zero divisor.
    A finite quotient is kept exact, not rounded to a double. *)
Definition fdiv (x y : Float) : Float :=
  match x, y with
  | Fin a, Fin b =>
      if Qeq_bool b 0 then
        (if Qeq_bool a 0 then NaN else Inf (negb (Qle_bool 0 a)))
      else Fin (a / b)
  | Inf s, Fin b =>
      if Qeq_bool b 0 then Inf s else Inf (xorb s (negb (Qle_bool 0 b)))
  | Fin _, Inf _ => Fin 0
  | _, _ => NaN
  end.

(** [a / b] where [a] is a statement cell ([numpy.float64]): numpy's
    true division; a non-numeric operand raises [TypeError]. *)
Definition np_truediv (a b : PyVal) : option PyVal :=
  match to_float a, to_float b with
  | Some x, Some y => Some (PFloat (fdiv x y))
  | _, _ => None
  end.

(** Line 70: [total_equity / shares_outstanding_stmt if total_equity is
    not None and shares_outstanding_stmt is not None else None] *)
Definition compute_bvps (total_equity shares_outstanding_stmt : PyVal) : option PyVal :=
  if negb (is_none total_equity) && negb (is_none shares_outstanding_stmt)
  then np_truediv total_equity shares_outstanding_stmt
  else Some PNone.

(** [hist['Close'].iloc[-1]]: raises on an empty history. *)
Definition iloc_last (hist : list HistRow) : option PyVal :=
  match last hist with Some (_, c) => Some c | None => None end.

(** The window of line 74:
    [start=f"{current_year - 3}-01-01", end=f"{current_year}-01-01"]. *)
Definition history_start (now : Date) : Date := (year now - 3, 1, 1)%Z.
Definition history_end (now : Date) : Date := (year now, 1, 1)%Z.

(* ================================================================== *)
(** ** Metric extraction ([fetch_financial_data], both variants) *)

(** The local variables of [fetch_financial_data] that enter the
    summary. *)
Record Metrics := {
  m_beta : PyVal;
  m_current_price : PyVal;
  m_market_cap : PyVal;
  m_pe_ratio : PyVal;
  m_forward_pe : PyVal;
  m_dividend_rate : PyVal;
  m_dividend_yield : PyVal;
  m_roe : PyVal;
  m_free_cash_flow : PyVal;
  m_net_income : PyVal;
  m_shares_outstanding_stmt : PyVal;
  m_eps : PyVal;
  m_total_debt : PyVal;
  m_total_equity : PyVal;
  m_bvps : PyVal;
  m_last_three_years_close : PyVal
}.

(** Lines 44-75, identical in both variants. *)
Definition fetch_metrics (p : Provider) (now : Date) : Fetch Metrics :=
  income_stmt ← call CFinancials (p_financials p);
  balance_sheet ← call CBalanceSheet (p_balance_sheet p);
  cash_flow ← call CCashflow (p_cashflow p);
  info ← call CInfo (p_info p);
  let beta := info_get info "beta" in
  let current_price := info_get info "currentPrice" in
  let shares_outstanding := info_get info "sharesOutstanding" in
  let market_cap := info_get info "marketCap" in
  let pe_ratio := info_get info "trailingPE" in
  let forward_pe := info_get info "forwardPE" in
  let dividend_rate := info_get info "dividendRate" in
  let dividend_yield := info_get info "dividendYield" in
  let roe := info_get info "returnOnEquity" in
  let free_cash_flow := stmt_get cash_flow "Free Cash Flow" PNone in
  let net_income := stmt_get income_stmt "Net Income" PNone in
  let shares_outstanding_stmt :=
    stmt_get balance_sheet "Share Issued" shares_outstanding in
  let eps := stmt_get income_stmt "Basic EPS" PNone in
  let total_debt := stmt_get balance_sheet "Total Debt" PNone in
  let total_equity := stmt_get balance_sheet "Stockholders Equity" PNone in
  bvps ← flift (compute_bvps total_equity shares_outstanding_stmt);
  hist ← call (CHistory (history_start now) (history_end now))
              (p_history p (history_start now) (history_end now));
  last_three_years_close ← flift (iloc_last hist);
  mret {| m_beta := beta; m_current_price := current_price;
          m_market_cap := market_cap; m_pe_ratio := pe_ratio;
          m_forward_pe := forward_pe; m_dividend_rate := dividend_rate;
          m_dividend_yield := dividend_yield; m_roe := roe;
          m_free_cash_flow := free_cash_flow; m_net_income := net_income;
          m_shares_outstanding_stmt := shares_outstanding_stmt;
          m_eps := eps; m_total_debt := total_debt;
          m_total_equity := total_equity; m_bvps := bvps;
          m_last_three_years_close := last_three_years_close |}.

(** The metric label ["Beta (Î²)"] of the source, as its UTF-8 bytes. *)
Definition beta_label : string :=
  "Beta (" +:+ String.String (Ascii.ascii_of_nat 195)
    (String.String (Ascii.ascii_of_nat 142)
      (String.String (Ascii.ascii_of_nat 194)
        (String.String (Ascii.ascii_of_nat 178) ")"))).

(** A summary DataFrame: its [Metric] and [Value] columns, row by row. *)
Definition Summary : Type := list (string * PyVal).

(** [summary_data] of [yf_pull_iv_data.py]. *)
Definition summary_data_batch (m : Metrics) : list (string * PyVal) :=
  [(beta_label, m_beta m);
   ("Current Price", m_current_price m);
   ("Market Cap", m_market_cap m);
   ("P/E Ratio", m_pe_ratio m);
   ("Forward P/E", m_forward_pe m);
   ("Dividend Rate", m_dividend_rate m);
   ("Dividend Yield", m_dividend_yield m);
   ("ROE", m_roe m);
   ("Free Cash Flow (FCF)", m_free_cash_flow m);
   ("Net Income", m_net_income m);
   ("Shares Outstanding", m_shares_outstanding_stmt m);
   ("EPS", m_eps m);
   ("Total Debt", m_total_debt m);
   ("Total Equity", m_total_equity m);
   ("BVPS", m_bvps m)].

(** [summary_data] of [yf_pull_iv_data_lai.py]: one more row. *)
Definition summary_data_lai (m : Metrics) : list (string * PyVal) :=
  summary_data_batch m ++
  [("Last 3 Years Close Price", m_last_three_years_close m)].

(** [pd.DataFrame(list(summary_data.items()), columns=['Metric','Value'])]
    followed by [df['Value'] = df['Value'].apply(round_metric)].  The
    dtype inference of pandas (a [None] among floats stored as NaN) is
    not modelled: each value reaches the lambda as it was computed. *)
Definition to_summary (rows : list (string * PyVal)) : Summary :=
  map (fun kv => (fst kv, round_metric (snd kv))) rows.

(** [fetch_financial_data] of the batch variant: the [except] branch
    (log and [return None]) turns any raise into [None]. *)
Definition fetch_financial_data (p : Provider) (now : Date) : list Call * option Summary :=
  (m ← fetch_metrics p now; mret (to_summary (summary_data_batch m))) [].

(** [fetch_financial_data] of the lai variant. *)
Definition fetch_financial_data_lai (p : Provider) (now : Date) : list Call * option Summary :=
  (m ← fetch_metrics p now; mret (to_summary (summary_data_lai m))) [].

(* ================================================================== *)
(** ** The fetch-validate pipeline ([process_ticker], [main]) *)

(** [validate_ticker]: the response of its own [yf.Ticker(t).info] call;
    an exception is logged and gives [False]. *)
Definition validate_ticker (info_resp : option Info) : bool :=
  match info_resp with
  | None => false
  | Some info => negb (is_none (info_get info "regularMarketPrice"))
  end.

(** What one worker thread sees of the outside world: the response to
    the validation lookup, the provider of its extraction and the clock. *)
Record WorkerEnv := {
  w_validate_info : option Info;
  w_provider : Provider;
  w_now : Date
}.

(** The terminal states of [process_ticker]. *)
Inductive Outcome :=
| Rejected
| Invalid
| FetchFailed
| EmptyData
| Succeeded (df : Summary).

(** The branch structure of [process_ticker] (lines 111-146). *)
Definition ticker_outcome (ticker : string) (env : WorkerEnv) : Outcome :=
  if negb (is_supported_ticker ticker) then Rejected
  else if negb (validate_ticker (w_validate_info env)) then Invalid
  else match snd (fetch_financial_data (w_provider env) (w_now env)) with
       | None => FetchFailed
       | Some financial_data =>
           (* [financial_data.empty] *)
           if bool_decide (financial_data = []) then EmptyData
           else Succeeded financial_data
       end.

(** The shared [results] dict and [failed] list. *)
Record Shared := {
  results : gmap string Summary;
  failed : list string
}.

Definition empty_shared : Shared := {| results := ∅; failed := [] |}.

(** The one critical section ([with lock:]) a worker runs. *)
Definition record_outcome (ticker : string) (o : Outcome) (st : Shared) : Shared :=
  match o with
  | Succeeded df => {| results := <[ticker := df]> (results st); failed := failed st |}
  | _ => {| results := results st; failed := failed st ++ [ticker] |}
  end.

(** Whether a terminal state stores into [results]. *)
Definition is_success (o : Outcome) : bool :=
  match o with Succeeded _ => true | _ => false end.

Definition process_ticker (ticker : string) (env : WorkerEnv) (st : Shared) : Shared :=
  record_outcome ticker (ticker_outcome ticker env) st.

(** A run of [main] after the join-all barrier.  The workers are
    started in input order; each one touches the shared state only in
    its one critical section, so a thread schedule is the order [sched]
    in which the workers enter it, any permutation of the workers. *)
Definition run_schedule (sched : list (string * WorkerEnv)) : Shared :=
  foldl (fun st w => process_ticker (fst w) (snd w) st) empty_shared sched.

(* ================================================================== *)
(** ** Reporter ([export_to_csv]) *)

Definition OUTPUT_DIR : string := "./output_reports/".

(** A CSV file written by [DataFrame.to_csv(path, index=False)]: its
    header row and its data rows. *)
Record CsvFile := {
  csv_header : list string;
  csv_rows : Summary
}.

(** The file system: existing directories (without trailing slash),
    CSV files by path, and the lines appended to [financials_log.txt]
    by [log] (a line is the logged message up to the exception text,
    which is not modelled). *)
Record FS := {
  fs_dirs : list string;
  fs_files : gmap string CsvFile;
  fs_log : list string
}.

Definition starts_with_slash (s : string) : bool :=
  match s with String.String c _ => Ascii.eqb c "/"%char | _ => false end.

(** [os.path.join(a, b)] for an [a] that ends with a slash. *)
Definition path_join (a b : string) : string :=
  if starts_with_slash b then b else a +:+ b.

(** [os.path.dirname] for paths without repeated slashes: the part
    before the last slash. *)
Fixpoint dirname_aux (s acc cur : string) : string :=
  match s with
  | EmptyString => acc
  | String.String c s' =>
      if Ascii.eqb c "/"%char then dirname_aux s' (cur) (cur +:+ "/")
      else dirname_aux s' acc (cur +:+ String.String c EmptyString)
  end.
Definition dirname (s : string) : string := dirname_aux s "" "".

(** [ensure_output_dir]: [os.path.exists('./output_reports/')] holds
    only for a directory; otherwise [os.makedirs] creates it, and raises
    ([FileExistsError]) when a regular file has that name.  Other
    operating-system errors (permissions, a full disk) are not modelled:
    the theorems below only draw conclusions from runs that complete. *)
Definition ensure_output_dir (fs : FS) : option FS :=
  if bool_decide ("./output_reports" ∈ fs_dirs fs) then Some fs
  else if bool_decide (is_Some (fs_files fs !! "./output_reports")) then None
  else Some {| fs_dirs := fs_dirs fs ++ ["./output_reports"]; fs_files := fs_files fs;
               fs_log := fs_log fs |}.

(** [financial_data.to_csv(path, index=False)]: raises when the parent
    directory is missing or when [path] is a directory
    ([IsADirectoryError]), overwrites an existing file. *)
Definition to_csv (fs : FS) (path : string) (df : Summary) : option FS :=
  if bool_decide (dirname path ∈ fs_dirs fs) && negb (bool_decide (path ∈ fs_dirs fs)) then
    Some {| fs_dirs := fs_dirs fs;
            fs_files := <[path := {| csv_header := ["Metric"; "Value"]; csv_rows := df |}]> (fs_files fs);
            fs_log := fs_log fs |}
  else None.

Definition report_path (ticker : string) : string :=
  path_join OUTPUT_DIR (ticker +:+ "_financials.csv").

(** [export_to_csv] of [yf_pull_iv_data.py]. *)
Definition export_to_csv (fs : FS) (ticker : string) (financial_data : Summary) : option FS :=
  match ensure_output_dir fs with
  | Some fs1 => to_csv fs1 (report_path ticker) financial_data
  | None => None
  end.

(** [export_to_csv] of [yf_pull_iv_data_lai.py]. *)
Definition export_to_csv_lai (fs : FS) (ticker : string) (financial_data : Summary) : option FS :=
  to_csv fs (report_path ticker) financial_data.

(* ================================================================== *)
(** ** Batch splitter ([split_csv.py]) *)

Section Splitter.
Context {A : Type}.

(** [l[a:b]] for [0 <= a]. *)
Definition py_slice (l : list A) (a b : nat) : list A :=
  firstn (b - a)%nat (skipn a l).

(** An output file of the splitter: its path, its one header cell
    ([df.columns[0]]) and its rows. *)
Record ChunkFile := {
  chunk_path : string;
  chunk_header : string;
  chunk_rows : list A
}.

Definition part_path (output_dir base_name : string) (i : nat) : string :=
  output_dir +:+ "/" +:+ base_name +:+ "_part" +:+ pretty (N.of_nat (i + 1)%nat) +:+ ".csv".

(** Step 3 (lines 42-55); [output_dir] and [base_name] are the values
    computed from the input path at lines 43-44. *)
Definition split_files (header output_dir base_name : string)
    (tickers : list A) (tickers_per_file : nat) : list ChunkFile :=
  let total_tickers := length tickers in
  let num_files := ((total_tickers + tickers_per_file - 1) / tickers_per_file)%nat in
  map (fun i =>
         let start_idx := (i * tickers_per_file)%nat in
         let end_idx := Nat.min ((i + 1) * tickers_per_file)%nat total_tickers in
         {| chunk_path := part_path output_dir base_name i;
            chunk_header := header;
            chunk_rows := py_slice tickers start_idx end_idx |})
      (seq 0 num_files).

(** Step 2 (lines 27-38): each answer is [int(input(...))], [None] for
    a [ValueError]; an exhausted input stream ([EOFError], uncaught)
    ends the script. *)
Fixpoint ask_chunk_size (total_tickers : Z) (answers : list (option Z)) : option Z :=
  match answers with
  | [] => None
  | None :: rest => ask_chunk_size total_tickers rest
  | Some v :: rest =>
      if (v <=? 0)%Z then ask_chunk_size total_tickers rest
      else if (v >? total_tickers)%Z then ask_chunk_size total_tickers rest
      else Some v
  end.

(** The script after the CSV was read: the files it writes. *)
Definition split_script (header output_dir base_name : string)
    (tickers : list A) (answers : list (option Z)) : list ChunkFile :=
  let total_tickers := length tickers in
  if (total_tickers =? 0)%nat then []
  else match ask_chunk_size (Z.of_nat total_tickers) answers with
       | Some k => split_files header output_dir base_name tickers (Z.to_nat k)
       | None => []
       end.

End Splitter.
Arguments ChunkFile : clear implicits.

(* ================================================================== *)
(** ** The rest of the batch [main] *)

(** The characters [str.strip()] removes are the Unicode whitespace
    characters ([str.isspace]): U+0009-U+000D, U+001C-U+0020, U+0085,
    U+00A0, U+1680, U+2000-U+200A, U+2028, U+2029, U+202F, U+205F and
    U+3000.  Strings are held as their UTF-8 bytes (one [ascii] per
    byte), so a whitespace character is one of the byte sequences below.
    The one-byte ones: *)
Definition is_py_space (c : ascii) : bool :=
  let n := nat_of_ascii c in
  (Nat.leb 9 n && Nat.leb n 13) || (Nat.leb 28 n && Nat.leb n 32).

(** U+0085 and U+00A0: [C2 85], [C2 A0]. *)
Definition is_ws2 (a b : ascii) : bool :=
  Nat.eqb (nat_of_ascii a) 194
  && (Nat.eqb (nat_of_ascii b) 133 || Nat.eqb (nat_of_ascii b) 160).

(** U+1680 [E1 9A 80]; U+2000-U+200A [E2 80 80]-[E2 80 8A], U+2028
    [E2 80 A8], U+2029 [E2 80 A9], U+202F [E2 80 AF]; U+205F [E2 81 9F];
    U+3000 [E3 80 80]. *)
Definition is_ws3 (a b c : ascii) : bool :=
  let x := nat_of_ascii a in
  let y := nat_of_ascii b in
  let z := nat_of_ascii c in
  (Nat.eqb x 225 && Nat.eqb y 154 && Nat.eqb z 128)
  || (Nat.eqb x 226 && Nat.eqb y 128
      && ((Nat.leb 128 z && Nat.leb z 138) || Nat.eqb z 168 || Nat.eqb z 169
          || Nat.eqb z 175))
  || (Nat.eqb x 226 && Nat.eqb y 129 && Nat.eqb z 159)
  || (Nat.eqb x 227 && Nat.eqb y 128 && Nat.eqb z 128).

(** Dropping characters at the front of a byte list: [p1], [p2] and [p3]
    recognise the one-, two- and three-byte characters to drop.  In
    valid UTF-8 the first byte fixes the length of a character, so the
    greedy match below drops whole characters. *)
Section DropFront.
Variable p1 : ascii -> bool.
Variable p2 : ascii -> ascii -> bool.
Variable p3 : ascii -> ascii -> ascii -> bool.

Fixpoint drop_front (l : list ascii) : list ascii :=
  match l with
  | [] => []
  | a :: l1 =>
      if p1 a then drop_front l1
      else match l1 with
           | [] => l
           | b :: l2 =>
               if p2 a b then drop_front l2
               else match l2 with
                    | [] => l
                    | c :: l3 => if p3 a b c then drop_front l3 else l
                    end
           end
  end.

(** The byte sequences [drop_front] drops, one character at a time. *)
Definition one_char (w : list ascii) : bool :=
  match w with
  | [a] => p1 a
  | [a; b] => p2 a b
  | [a; b; c] => p3 a b c
  | _ => false
  end.
End DropFront.

(** A concatenation of byte sequences each accepted by [P]. *)
Inductive runs_of (P : list ascii -> bool) : list ascii -> Prop :=
| runs_nil : runs_of P []
| runs_cons (w rest : list ascii) :
    P w = true -> runs_of P rest -> runs_of P (app w rest).

(** The UTF-8 encoding of one whitespace character, and a run of them. *)
Definition ws_char : list ascii -> bool := one_char is_py_space is_ws2 is_ws3.
Definition ws_seq : list ascii -> Prop := runs_of ws_char.

(** [str.lstrip()] on the bytes: drop whitespace characters at the front. *)
Definition lstrip_list : list ascii -> list ascii :=
  drop_front is_py_space is_ws2 is_ws3.

(** [str.rstrip()] on the reversed bytes: drop the whitespace characters,
    read backwards, at the front of the reversed list. *)
Definition rstrip_rev : list ascii -> list ascii :=
  drop_front is_py_space (fun a b => is_ws2 b a) (fun a b c => is_ws3 c b a).

(** [str.strip()]: whitespace removed at both ends. *)
Definition py_strip (s : string) : string :=
  String.string_of_list_ascii
    (rev (rstrip_rev (rev (lstrip_list (String.list_ascii_of_string s))))).

(** Line 167: [[row[0].strip() for row in reader if row]], the rows as
    [csv.reader] parses them. *)
Definition read_tickers (rows : list (list string)) : list string :=
  flat_map (fun row => match row with
                       | [] => []
                       | c0 :: _ => [py_strip c0]
                       end) rows.


Fixpoint has_slash (s : string) : bool :=
  match s with
  | EmptyString => false
  | String.String c s' => Ascii.eqb c "/"%char || has_slash s'
  end.

(* ================================================================== *)
(** ** The lai [main] *)




(* ================================================================== *)
(** ** The splitter's output location (lines 43-44) *)

(** [s.rfind(c)] on a character list, [None] for [-1]. *)
Fixpoint rfind_aux (c : ascii) (l : list ascii) (i : nat) (acc : option nat) : option nat :=
  match l with
  | [] => acc
  | x :: l' => rfind_aux c l' (S i) (if Ascii.eqb x c then Some i else acc)
  end.
Definition rfind (c : ascii) (l : list ascii) : option nat := rfind_aux c l 0 None.

(** [posixpath.basename]: [p[p.rfind('/') + 1:]]. *)
Definition py_basename (p : string) : string :=
  let l := String.list_ascii_of_string p in
  match rfind "/"%char l with
  | Some i => String.string_of_list_ascii (skipn (S i) l)
  | None => p
  end.

Fixpoint lstrip_slash (l : list ascii) : list ascii :=
  match l with
  | [] => []
  | c :: l' => if Ascii.eqb c "/"%char then lstrip_slash l' else l
  end.

(** [posixpath.dirname]: the head up to the last slash, with its trailing
    slashes removed unless it is all slashes. *)
Definition py_dirname (p : string) : string :=
  let l := String.list_ascii_of_string p in
  let head := match rfind "/"%char l with Some i => firstn (S i) l | None => [] end in
  if existsb (fun c => negb (Ascii.eqb c "/"%char)) head
  then String.string_of_list_ascii (rev (lstrip_slash (rev head)))
  else String.string_of_list_ascii head.

(** [os.path.splitext(p)[0]] ([genericpath._splitext] with [sep='/'],
    [extsep='.']): cut at the last dot when it follows the last slash
    and some character other than a dot lies between them. *)
Definition py_splitext_root (p : string) : string :=
  let l := String.list_ascii_of_string p in
  let start := match rfind "/"%char l with Some i => S i | None => 0 end in
  match rfind "."%char l with
  | Some d =>
      if Nat.leb start d
         && existsb (fun c => negb (Ascii.eqb c "."%char)) (firstn (d - start) (skipn start l))
      then String.string_of_list_ascii (firstn d l)
      else p
  | None => p
  end.

(** Line 43: [os.path.dirname(file_path) if os.path.dirname(file_path) else "."] *)
Definition split_output_dir (file_path : string) : string :=
  let d := py_dirname file_path in
  if String.eqb d "" then "." else d.

(** Line 44: [os.path.splitext(os.path.basename(file_path))[0]] *)
Definition split_base_name (file_path : string) : string :=
  py_splitext_root (py_basename file_path).

(* ================================================================== *)
(** ** Dates, and the close price as the spec words it *)

Definition date_compare (a b : Date) : comparison :=
  match Z.compare (year a) (year b) with
  | Eq => match Z.compare (snd (fst a)) (snd (fst b)) with
          | Eq => Z.compare (snd a) (snd b)
          | c => c
          end
  | c => c
  end.
Definition date_le (a b : Date) : bool :=
  match date_compare a b with Gt => false | _ => true end.
Definition date_lt (a b : Date) : bool :=
  match date_compare a b with Lt => true | _ => false end.

(** A history provider backed by a full daily close series (sorted by
    date): [history(start, end)] returns the rows with
    [start <= date < end]. *)
Definition series_history (series : list HistRow) (start end_ : Date) : option (list HistRow) :=
  Some (filter (fun r => date_le start (fst r) && date_lt (fst r) end_) series).

(** The spec's "Last 3 Years Close": the most recent close within the
    trailing three-calendar-year window ending today; absent when there
    is none. *)
Definition spec_last_3y_close (series : list HistRow) (today : Date) : option PyVal :=
  let from := (year today - 3, snd (fst today), snd today)%Z in
  match last (filter (fun r => date_le from (fst r) && date_le (fst r) today) series) with
  | Some (_, c) => Some c
  | None => None
  end.

(** The provider with its history responses replaced. *)
Definition with_history (p : Provider) (h : Date -> Date -> option (list HistRow)) : Provider :=
  {| p_financials := p_financials p; p_balance_sheet := p_balance_sheet p;
     p_cashflow := p_cashflow p; p_info := p_info p; p_history := h |}.

(* ================================================================== *)
(** ** Concrete inputs *)

Definition now0 : Date := (2026, 10, 17)%Z.

Definition info0 : Info :=
  [("regularMarketPrice", PFloat (Fin 100));
   ("currentPrice", PFloat (Fin (123456 # 1000)));
   ("sharesOutstanding", PInt 100);
   ("beta", PFloat (Fin (12 # 10)))].

Definition balance0 : Stmt :=
  [("Stockholders Equity", PFloat (Fin 1000)); ("Total Debt", PFloat (Fin 50))].

Definition price_series0 : list HistRow :=
  [((2025, 6, 2)%Z, PFloat (Fin 100)); ((2026, 6, 1)%Z, PFloat (Fin 120))].

Definition provider0 : Provider :=
  {| p_financials := Some []; p_balance_sheet := Some balance0;
     p_cashflow := Some []; p_info := Some info0;
     p_history := series_history price_series0 |}.

(** A worker whose provider answers every call. *)
Definition env_ok : WorkerEnv :=
  {| w_validate_info := Some info0; w_provider := provider0; w_now := now0 |}.

(** A worker whose validation lookup raised (e.g. a network error). *)
Definition env_down : WorkerEnv :=
  {| w_validate_info := None; w_provider := provider0; w_now := now0 |}.

(** A file system with no report directory yet. *)
Definition fs0 : FS := {| fs_dirs := ["."]; fs_files := ∅; fs_log := [] |}.

(* ================================================================== *)
(** ** Auxiliary notions of the proofs *)

(** Two shared states that agree up to the order of [failed]. *)
Definition shared_equiv (st1 st2 : Shared) : Prop :=
  results st1 = results st2 /\ failed st1 ≡ₚ failed st2.

(** The five provider calls of [fetch_financial_data], in program order. *)
Definition extraction_calls (now : Date) : list Call :=
  [CFinancials; CBalanceSheet; CCashflow; CInfo;
   CHistory (history_start now) (history_end now)].

(* ================================================================== *)
(** * Properties *)

(* ------------------------------------------------------------------ *)
(** ** Helper lemmas *)

Lemma substring_zero_len (n : nat) (s : string) : String.substring n 0 s = "".
Proof.
  revert s; induction n as [|n IH]; intros [|c s]; simpl; auto.
Qed.

Lemma endswith_empty (t : string) : endswith t "" = true.
Proof.
  unfold endswith. simpl. rewrite substring_zero_len. reflexivity.
Qed.

Lemma round_half_even_100_spec (q : Q) :
  (2 * Z.abs (100 * Qnum q - round_half_even_100 q * Zpos (Qden q)) <= Zpos (Qden q))%Z.
Proof.
  unfold round_half_even_100.
  set (x := (100 * Qnum q)%Z). set (d := Zpos (Qden q)).
  assert (Hd : (0 < d)%Z) by (unfold d; lia).
  pose proof (Z.div_mod x d ltac:(lia)) as Hdm.
  pose proof (Z.mod_pos_bound x d Hd) as Hb.
  set (fl := (x / d)%Z) in *. set (r := (x mod d)%Z) in *.
  destruct (Z.compare_spec (2 * r) d) as [E|L|G].
  - destruct (Z.even fl); lia.
  - lia.
  - lia.
Qed.

(* ------------------------------------------------------------------ *)
(** ** C5: the ticker classifier *)

(** C5: [is_supported_ticker] holds exactly when the ticker ends with one
    of the supported suffixes; since [""] is one of them, it holds for
    every ticker, e.g. ["0700.HK"] and ["XYZ@@"]. *)
Theorem is_supported_ticker_always (ticker : string) :
  (is_supported_ticker ticker = true <->
     exists suffix, In suffix SUPPORTED_SUFFIXES /\ endswith ticker suffix = true)
  /\ is_supported_ticker ticker = true
  /\ is_supported_ticker "0700.HK" = true
  /\ is_supported_ticker "XYZ@@" = true.
Proof.
  unfold is_supported_ticker.
  split; [apply existsb_exists|].
  split; [|split; reflexivity].
  apply existsb_exists. exists "". split.
  - unfold SUPPORTED_SUFFIXES. simpl. tauto.
  - apply endswith_empty.
Qed.

(* ------------------------------------------------------------------ *)
(** ** C6: rounding of metric values *)

(** C6: the post-processing lambda rounds every [int] or [float] to two
    decimal places (an [int] is its own rounding; a finite float becomes
    a multiple of 1/100 at distance at most 1/200, e.g. 12.3456 becomes
    12.35; infinities and NaN are their own rounding) and leaves every
    other value, [None] included, unchanged. *)
Theorem round_metric_spec (x : PyVal) :
  (is_int_or_float x = false -> round_metric x = x)
  /\ (forall z, x = PInt z -> round_metric x = PInt z)
  /\ (forall q, x = PFloat (Fin q) ->
        exists r, round_metric x = PFloat (Fin (r # 100))
             /\ (2 * Z.abs (100 * Qnum q - r * Zpos (Qden q)) <= Zpos (Qden q))%Z)
  /\ (forall f, x = PFloat f -> (forall q, f <> Fin q) -> round_metric x = x)
  /\ round_metric (PFloat (Fin (123456 # 10000))) = PFloat (Fin (1235 # 100))
  /\ round_metric PNone = PNone.
Proof.
  split; [|split; [|split; [|split]]].
  - unfold round_metric. intros ->. reflexivity.
  - intros z ->. reflexivity.
  - intros q ->. exists (round_half_even_100 q). split; [reflexivity|].
    apply round_half_even_100_spec.
  - intros f -> Hf. destruct f as [q| |]; [now destruct (Hf q)|reflexivity|reflexivity].
  - split; reflexivity.
Qed.

(* ------------------------------------------------------------------ *)
(** ** The extraction, unfolded *)

Lemma fetch_financial_data_unfold (p : Provider) (now : Date) :
  fetch_financial_data p now =
  match fetch_metrics p now [] with
  | (tr, Some m) => (tr, Some (to_summary (summary_data_batch m)))
  | (tr, None) => (tr, None)
  end.
Proof. reflexivity. Qed.

Lemma fetch_financial_data_lai_unfold (p : Provider) (now : Date) :
  fetch_financial_data_lai p now =
  match fetch_metrics p now [] with
  | (tr, Some m) => (tr, Some (to_summary (summary_data_lai m)))
  | (tr, None) => (tr, None)
  end.
Proof. reflexivity. Qed.

Ltac fetch_step :=
  match goal with
  | |- context [match ?o with Some _ => _ | None => _ end] =>
      let E := fresh "E" in destruct o eqn:E
  end.

Lemma fetch_metrics_inv (p : Provider) (now : Date) (tr : list Call) (m : Metrics) :
  fetch_metrics p now [] = (tr, Some m) ->
  exists income balance cash info hist,
    p_financials p = Some income /\ p_balance_sheet p = Some balance /\
    p_cashflow p = Some cash /\ p_info p = Some info /\
    p_history p (history_start now) (history_end now) = Some hist /\
    tr = [CFinancials; CBalanceSheet; CCashflow; CInfo;
          CHistory (history_start now) (history_end now)] /\
    m_total_equity m = stmt_get balance "Stockholders Equity" PNone /\
    m_shares_outstanding_stmt m =
      stmt_get balance "Share Issued" (info_get info "sharesOutstanding") /\
    compute_bvps (m_total_equity m) (m_shares_outstanding_stmt m) = Some (m_bvps m) /\
    iloc_last hist = Some (m_last_three_years_close m).
Proof.
  unfold fetch_metrics, mbind, mret, fetch_bind, fetch_ret, fbind, fret, call, flift.
  simpl.
  repeat (fetch_step; simpl; try discriminate).
  intros H. injection H as <- <-.
  do 5 eexists. repeat split; eauto.
Qed.

Lemma iloc_last_cons (r : HistRow) (rs : list HistRow) : iloc_last (r :: rs) <> None.
Proof.
  unfold iloc_last. destruct (last (r :: rs)) as [[d c]|] eqn:E; [discriminate|].
  apply last_None in E. discriminate.
Qed.

(* ------------------------------------------------------------------ *)
(** ** C4: book value per share *)

(** C4: in every extraction that returns metrics, BVPS is [None] when
    Total Equity or the Shares Outstanding used in the summary is
    [None], and otherwise their IEEE quotient; a zero divisor is not
    guarded (the quotient is an infinity or NaN, no exception). *)
Theorem bvps_of_extraction (p : Provider) (now : Date) (tr : list Call) (m : Metrics)
    (H : fetch_metrics p now [] = (tr, Some m)) :
  ((is_none (m_total_equity m) || is_none (m_shares_outstanding_stmt m)) = true ->
     m_bvps m = PNone)
  /\ (forall x y, to_float (m_total_equity m) = Some x ->
        to_float (m_shares_outstanding_stmt m) = Some y ->
        m_bvps m = PFloat (fdiv x y)).
Proof.
  apply fetch_metrics_inv in H
    as (inc & bal & cash & info & hist & _ & _ & _ & _ & _ & _ & _ & _ & Hb & _).
  unfold compute_bvps in Hb.
  split.
  - intros Hn. apply orb_true_iff in Hn.
    destruct (is_none (m_total_equity m)), (is_none (m_shares_outstanding_stmt m));
      simpl in *; try congruence; destruct Hn; discriminate.
  - intros x y Hx Hy.
    assert (Ht : is_none (m_total_equity m) = false)
      by (revert Hx; destruct (m_total_equity m); simpl; congruence).
    assert (Hs : is_none (m_shares_outstanding_stmt m) = false)
      by (revert Hy; destruct (m_shares_outstanding_stmt m); simpl; congruence).
    rewrite Ht, Hs in Hb. simpl in Hb.
    unfold np_truediv in Hb. rewrite Hx, Hy in Hb. congruence.
Qed.

(* ------------------------------------------------------------------ *)
(** ** C10: the summary always has its fifteen rows *)

(** C10: every summary returned by the batch extraction has exactly the
    fifteen metric rows, in order, so it is never empty, and the
    [EmptyData] branch of [process_ticker] is never taken. *)
Theorem summary_rows_fixed :
  (forall (p : Provider) (now : Date) (tr : list Call) (df : Summary),
      fetch_financial_data p now = (tr, Some df) ->
      map fst df =
        [beta_label; "Current Price"; "Market Cap"; "P/E Ratio"; "Forward P/E";
         "Dividend Rate"; "Dividend Yield"; "ROE"; "Free Cash Flow (FCF)";
         "Net Income"; "Shares Outstanding"; "EPS"; "Total Debt";
         "Total Equity"; "BVPS"]
      /\ length df = 15 /\ df <> [])
  /\ (forall (ticker : string) (env : WorkerEnv), ticker_outcome ticker env <> EmptyData).
Proof.
  assert (Hrows : forall (p : Provider) (now : Date) (tr : list Call) (df : Summary),
      fetch_financial_data p now = (tr, Some df) ->
      map fst df =
        [beta_label; "Current Price"; "Market Cap"; "P/E Ratio"; "Forward P/E";
         "Dividend Rate"; "Dividend Yield"; "ROE"; "Free Cash Flow (FCF)";
         "Net Income"; "Shares Outstanding"; "EPS"; "Total Debt";
         "Total Equity"; "BVPS"]
      /\ length df = 15 /\ df <> []).
  { intros p now tr df H. rewrite fetch_financial_data_unfold in H.
    destruct (fetch_metrics p now []) as [tr' [m|]]; inversion H; subst.
    split; [reflexivity|split; [reflexivity|discriminate]]. }
  split; [exact Hrows|].
  intros ticker env. unfold ticker_outcome.
  destruct (negb (is_supported_ticker ticker)); [discriminate|].
  destruct (negb (validate_ticker (w_validate_info env))); [discriminate|].
  destruct (fetch_financial_data (w_provider env) (w_now env)) as [tr [df|]] eqn:E;
    simpl; [|discriminate].
  destruct (Hrows _ _ _ _ E) as (_ & _ & Hne).
  rewrite bool_decide_false by exact Hne. discriminate.
Qed.

(* ------------------------------------------------------------------ *)
(** ** C3: the lai variant's "Last 3 Years Close Price" *)

(** C3 (as stated, refuted): today is 2026-10-17 and the close series has
    a row on 2026-06-01, inside the trailing three years ending today;
    the lai variant queries the history only up to 2026-01-01 and
    reports the close of 2025-06-02 instead. *)
Lemma lai_last_close_trailing_counterexample :
  match snd (fetch_financial_data_lai provider0 now0) with
  | Some df =>
      assoc "Last 3 Years Close Price" df
        <> option_map round_metric (spec_last_3y_close price_series0 now0)
  | None => False
  end.
Proof. vm_compute. discriminate. Qed.

(** C3 (amended): when the lai extraction returns a summary, it queried
    the history from Jan 1 of (current year - 3) to Jan 1 of the current
    year, and its "Last 3 Years Close Price" is the (rounded) close of
    the last row of that query. *)
Theorem lai_last_close_window (p : Provider) (now : Date) (tr : list Call) (df : Summary)
    (H : fetch_financial_data_lai p now = (tr, Some df)) :
  CHistory (year now - 3, 1, 1)%Z (year now, 1, 1)%Z ∈ tr
  /\ exists hist d c,
       p_history p (year now - 3, 1, 1)%Z (year now, 1, 1)%Z = Some hist
       /\ last hist = Some (d, c)
       /\ assoc "Last 3 Years Close Price" df = Some (round_metric c).
Proof.
  rewrite fetch_financial_data_lai_unfold in H.
  destruct (fetch_metrics p now []) as [tr' [m|]] eqn:E; inversion H; subst.
  apply fetch_metrics_inv in E
    as (inc & bal & cash & info & hist & _ & _ & _ & _ & Hh & Htr & _ & _ & _ & Hl).
  split.
  - rewrite Htr. apply list_elem_of_In. simpl. auto 10.
  - unfold iloc_last in Hl.
    destruct (last hist) as [[d c]|] eqn:Ehist; [|discriminate].
    injection Hl as Hc.
    exists hist, d, c. split; [exact Hh|]. split; [exact Ehist|].
    rewrite Hc. vm_compute. reflexivity.
Qed.

(* ------------------------------------------------------------------ *)
(** ** C7: the provider calls of the batch extraction *)

(** Two batch runs that differ only in history responses that both
    return at least one row for the queried window make the same calls
    and have the same outcome. *)
Lemma batch_outcome_nonempty_history
    (p : Provider) (h1 h2 : Date -> Date -> option (list HistRow)) (now : Date) :
  (exists r rs, h1 (history_start now) (history_end now) = Some (r :: rs)) ->
  (exists r rs, h2 (history_start now) (history_end now) = Some (r :: rs)) ->
  fetch_financial_data (with_history p h1) now = fetch_financial_data (with_history p h2) now.
Proof.
  intros (r1 & rs1 & E1) (r2 & rs2 & E2).
  pose proof (iloc_last_cons r1 rs1) as L1. pose proof (iloc_last_cons r2 rs2) as L2.
  unfold fetch_financial_data, fetch_metrics, mbind, mret, fetch_bind, fetch_ret,
    fbind, fret, call, flift.
  simpl. rewrite E1, E2.
  destruct (p_financials p), (p_balance_sheet p), (p_cashflow p), (p_info p);
    simpl; try reflexivity.
  destruct (compute_bvps _ _); simpl; [|reflexivity].
  destruct (iloc_last (r1 :: rs1)); [|congruence].
  destruct (iloc_last (r2 :: rs2)); [|congruence].
  reflexivity.
Qed.

(** C7 (a defect of the batch script): the claim says the batch
    extraction does not depend on the price history.  It does: the batch
    [fetch_financial_data] also calls [ticker.history] and takes
    [hist['Close'].iloc[-1]], a value its summary never uses.  On the
    reference provider the call is made and the extraction succeeds;
    the same provider with a history that has no rows, or whose query
    raises, makes the extraction fail; and in general a history without
    rows or a raising history query makes every batch extraction fail.
    Only among histories with at least one row is the outcome the
    same. *)
Theorem batch_history_dead_read :
  (CHistory (history_start now0) (history_end now0) ∈ fst (fetch_financial_data provider0 now0)
   /\ is_Some (snd (fetch_financial_data provider0 now0))
   /\ snd (fetch_financial_data (with_history provider0 (fun _ _ => Some [])) now0) = None
   /\ snd (fetch_financial_data (with_history provider0 (fun _ _ => None)) now0) = None)
  /\ (forall p now,
        p_history p (history_start now) (history_end now) = Some []
        \/ p_history p (history_start now) (history_end now) = None ->
        snd (fetch_financial_data p now) = None)
  /\ (forall p h1 h2 now,
        (exists r rs, h1 (history_start now) (history_end now) = Some (r :: rs)) ->
        (exists r rs, h2 (history_start now) (history_end now) = Some (r :: rs)) ->
        fetch_financial_data (with_history p h1) now
        = fetch_financial_data (with_history p h2) now).
Proof.
  split; [|split].
  - split; [vm_compute; apply list_elem_of_In; simpl; auto 10|].
    split; [vm_compute; eexists; reflexivity|].
    split; vm_compute; reflexivity.
  - intros p now Hh.
    destruct (snd (fetch_financial_data p now)) as [df|] eqn:E; [exfalso|reflexivity].
    rewrite fetch_financial_data_unfold in E.
    destruct (fetch_metrics p now []) as [tr [m|]] eqn:E2; simpl in E; [|discriminate E].
    apply fetch_metrics_inv in E2
      as (inc & bal & cash & info & hist & _ & _ & _ & _ & Hh' & _ & _ & _ & _ & Hl).
    change (p_history p (history_start now) (history_end now) = Some hist) in Hh'.
    destruct Hh as [Hh|Hh]; rewrite Hh in Hh'; [|discriminate Hh'].
    injection Hh' as <-. discriminate Hl.
  - intros p h1 h2 now. apply batch_outcome_nonempty_history.
Qed.

(* ------------------------------------------------------------------ *)
(** ** C1: every ticker ends in exactly one of [results] and [failed] *)

Lemma process_ticker_members (w : string * WorkerEnv) (st : Shared) (t : string) :
  (is_Some (results (process_ticker (fst w) (snd w) st) !! t) <->
     is_Some (results st !! t) \/ (fst w = t /\ is_success (ticker_outcome (fst w) (snd w)) = true))
  /\ (t ∈ failed (process_ticker (fst w) (snd w) st) <->
     t ∈ failed st \/ (fst w = t /\ is_success (ticker_outcome (fst w) (snd w)) = false)).
Proof.
  unfold process_ticker, record_outcome.
  destruct (ticker_outcome (fst w) (snd w)) as [| | | |df]; simpl;
    rewrite ?lookup_insert_is_Some', ?elem_of_app, ?list_elem_of_singleton;
    split; split; intros Hm; intuition (subst; auto; try discriminate).
Qed.

Lemma run_members (l : list (string * WorkerEnv)) (st : Shared) (t : string) :
  let st' := foldl (fun st w => process_ticker (fst w) (snd w) st) st l in
  (is_Some (results st' !! t) <->
     is_Some (results st !! t) \/
     exists e, (t, e) ∈ l /\ is_success (ticker_outcome t e) = true)
  /\ (t ∈ failed st' <->
     t ∈ failed st \/
     exists e, (t, e) ∈ l /\ is_success (ticker_outcome t e) = false).
Proof.
  revert st. induction l as [|w l IH]; intros st; simpl.
  - split; split; intros Hm; [left; exact Hm| |left; exact Hm|];
      destruct Hm as [Hm|(e & He & _)]; try exact Hm; inversion He.
  - destruct (IH (process_ticker (fst w) (snd w) st)) as [IHr IHf].
    destruct (process_ticker_members w st t) as [Pr Pf].
    destruct w as [t' e']; simpl in *.
    split.
    + rewrite IHr, Pr. split.
      * intros [[Hm|[-> Hs]]|(e & He & Hs)]; [left; exact Hm| |].
        -- right. exists e'. split; [left|exact Hs].
        -- right. exists e. split; [right; exact He|exact Hs].
      * intros [Hm|(e & He & Hs)]; [left; left; exact Hm|].
        apply elem_of_cons in He as [He|He].
        -- injection He as -> ->. left; right; auto.
        -- right. exists e. auto.
    + rewrite IHf, Pf. split.
      * intros [[Hm|[-> Hs]]|(e & He & Hs)]; [left; exact Hm| |].
        -- right. exists e'. split; [left|exact Hs].
        -- right. exists e. split; [right; exact He|exact Hs].
      * intros [Hm|(e & He & Hs)]; [left; left; exact Hm|].
        apply elem_of_cons in He as [He|He].
        -- injection He as -> ->. left; right; auto.
        -- right. exists e. auto.
Qed.

(** C1 (as stated, refuted): a ticker listed twice whose two workers get
    different provider answers (the second validation lookup raises)
    ends up both in [results] and in [failed]. *)
Lemma duplicate_ticker_counterexample :
  is_Some (results (run_schedule [("AAPL", env_ok); ("AAPL", env_down)]) !! "AAPL")
  /\ "AAPL" ∈ failed (run_schedule [("AAPL", env_ok); ("AAPL", env_down)]).
Proof.
  split.
  - vm_compute. eexists. reflexivity.
  - vm_compute. left.
Qed.

(** C1 (amended): for every thread schedule (any order in which the
    workers enter their critical section), when all the workers of one
    ticker reach the same kind of outcome (in particular when no ticker
    is listed twice), every input ticker ends in exactly one of
    [results] and [failed]. *)
Theorem run_partition (workers sched : list (string * WorkerEnv))
    (Hsched : sched ≡ₚ workers)
    (Hcons : forall t e1 e2, (t, e1) ∈ workers -> (t, e2) ∈ workers ->
       is_success (ticker_outcome t e1) = is_success (ticker_outcome t e2))
    (t : string) (Hin : exists e, (t, e) ∈ workers) :
  (is_Some (results (run_schedule sched) !! t) /\ t ∉ failed (run_schedule sched))
  \/ (results (run_schedule sched) !! t = None /\ t ∈ failed (run_schedule sched)).
Proof.
  unfold run_schedule.
  destruct (run_members sched empty_shared t) as [Hr Hf].
  simpl in Hr, Hf.
  rewrite lookup_empty in Hr.
  destruct Hin as (e & He).
  destruct (is_success (ticker_outcome t e)) eqn:Hs.
  - left. split.
    + apply Hr. right. exists e. split; [rewrite Hsched; exact He|exact Hs].
    + intros Hm. apply Hf in Hm as [Hm|(e' & He' & Hs')]; [inversion Hm|].
      rewrite Hsched in He'. rewrite (Hcons t e' e He' He) in Hs'. congruence.
  - right. split.
    + apply eq_None_not_Some. intros Hm.
      apply Hr in Hm as [Hm|(e' & He' & Hs')]; [inversion Hm; discriminate|].
      rewrite Hsched in He'. rewrite (Hcons t e' e He' He) in Hs'. congruence.
    + apply Hf. right. exists e. split; [rewrite Hsched; exact He|exact Hs].
Qed.

(* ------------------------------------------------------------------ *)
(** ** C2: the batch splitter's chunks *)

Section SplitterProofs.
Context {A : Type}.

Lemma num_files_bounds (n k : nat) (Hn : 1 <= n) (Hk : 1 <= k) :
  let num := ((n + k - 1) / k)%nat in
  1 <= num /\ n <= num * k /\ (num - 1) * k < n.
Proof.
  intros num.
  pose proof (Nat.div_mod (n + k - 1) k ltac:(lia)) as Hdm.
  pose proof (Nat.mod_upper_bound (n + k - 1) k ltac:(lia)) as Hb.
  fold num in Hdm.
  set (r := ((n + k - 1) mod k)%nat) in *.
  assert (n <= num * k) by nia.
  assert (1 <= num) by nia.
  split; [lia|split; [lia|]].
  destruct num as [|num']; [lia|]. simpl. rewrite Nat.sub_0_r. nia.
Qed.

Lemma concat_chunks (l : list A) (k c : nat) :
  concat (map (fun i => py_slice l (i * k) (Nat.min ((i + 1) * k) (length l))) (seq 0 c))
  = firstn (Nat.min (c * k) (length l)) l.
Proof.
  induction c as [|c IH]; [reflexivity|].
  rewrite seq_S, map_app, concat_app, IH. simpl. rewrite app_nil_r.
  unfold py_slice.
  destruct (Nat.le_gt_cases (c * k) (length l)) as [Hle|Hgt].
  - rewrite (Nat.min_l (c * k)) by exact Hle.
    rewrite take_take_drop. f_equal.
    replace (c + 1) with (S c) by lia. nia.
  - rewrite skipn_all2 by lia. rewrite firstn_nil, app_nil_r.
    f_equal. replace (c + 1) with (S c) by lia. nia.
Qed.

Lemma chunk_length (l : list A) (k i : nat) (Hk : 1 <= k) (Hi : (i + 1) * k <= length l) :
  length (py_slice l (i * k) (Nat.min ((i + 1) * k) (length l))) = k.
Proof.
  unfold py_slice. rewrite length_firstn, length_skipn. nia.
Qed.

Lemma last_chunk_length (l : list A) (k i : nat) (Hk : 1 <= k)
    (Hlt : i * k < length l) (Hge : length l <= (i + 1) * k) :
  1 <= length (py_slice l (i * k) (Nat.min ((i + 1) * k) (length l))) <= k.
Proof.
  unfold py_slice. rewrite length_firstn, length_skipn. nia.
Qed.

End SplitterProofs.

(** C2: for [n >= 1] tickers and a chunk size [1 <= k <= n], the splitter
    writes [ceil(n/k)] files [{dir}/{base}_part{i}.csv] for [i = 1, 2, ...],
    each with the header of the ticker column; all chunks but the last
    have [k] rows, the last between 1 and [k], and their in-order
    concatenation is the ticker list. *)
Theorem split_files_correct {A : Type} (header output_dir base_name : string)
    (tickers : list A) (k : nat)
    (Hn : 1 <= length tickers) (Hk1 : 1 <= k) (Hk2 : k <= length tickers) :
  let files := split_files header output_dir base_name tickers k in
  let num := ((length tickers + k - 1) / k)%nat in
  length files = num
  /\ map chunk_path files =
       map (fun j => output_dir +:+ "/" +:+ base_name +:+ "_part" +:+
                     pretty (N.of_nat j) +:+ ".csv") (seq 1 num)
  /\ Forall (fun f => chunk_header f = header) files
  /\ concat (map chunk_rows files) = tickers
  /\ (forall f, In f (removelast files) -> length (chunk_rows f) = k)
  /\ (exists f, last files = Some f /\ 1 <= length (chunk_rows f) <= k).
Proof.
  intros files num.
  destruct (num_files_bounds (length tickers) k Hn Hk1) as (Hnum1 & Hnum2 & Hnum3).
  fold num in Hnum1, Hnum2, Hnum3.
  unfold files, split_files. fold num.
  split; [rewrite length_map, length_seq; reflexivity|].
  split.
  { rewrite map_map. rewrite <- seq_shift, map_map.
    apply map_ext. intros i. unfold part_path. rewrite Nat.add_1_r. reflexivity. }
  split.
  { apply List.Forall_forall. intros f Hf. apply in_map_iff in Hf as (i & <- & _). reflexivity. }
  split.
  { rewrite map_map. simpl. rewrite concat_chunks.
    rewrite Nat.min_r by lia. apply firstn_all. }
  destruct num as [|num']; [lia|].
  rewrite seq_S, map_app. cbn [map Nat.add].
  split.
  - rewrite removelast_last. intros f Hf.
    apply in_map_iff in Hf as (i & <- & Hi). apply in_seq in Hi. simpl.
    apply chunk_length; [exact Hk1|].
    simpl in Hnum3. rewrite Nat.sub_0_r in Hnum3.
    assert ((i + 1) * k <= num' * k) by (apply Nat.mul_le_mono_r; lia). lia.
  - rewrite last_snoc. eexists. split; [reflexivity|]. simpl.
    simpl in Hnum3. rewrite Nat.sub_0_r in Hnum3.
    apply last_chunk_length; [exact Hk1|exact Hnum3|].
    replace (num' + 1) with (S num') by lia. exact Hnum2.
Qed.

(* ------------------------------------------------------------------ *)
(** ** C8: chunk sizes outside [1, len(tickers)] are rejected *)

Lemma ask_chunk_size_bounds (total : Z) (answers : list (option Z)) (k : Z) :
  ask_chunk_size total answers = Some k -> (1 <= k <= total)%Z.
Proof.
  induction answers as [|[v|] rest IH]; simpl; [discriminate| |exact IH].
  destruct (v <=? 0)%Z eqn:E1; [exact IH|].
  destruct (v >? total)%Z eqn:E2; [exact IH|].
  intros H. injection H as <-. lia.
Qed.

(** C8: an answer [v <= 0] or [v > len(tickers)] is re-prompted: the
    script then behaves as if it had never been given, so an input that
    offers only such an answer (and then ends) writes no file; every
    accepted chunk size lies in [1, len(tickers)]. *)
Theorem chunk_size_rejected {A : Type} (header output_dir base_name : string)
    (tickers : list A) (v : Z) (rest : list (option Z))
    (Hv : (v <= 0 \/ Z.of_nat (length tickers) < v)%Z) :
  ask_chunk_size (Z.of_nat (length tickers)) (Some v :: rest)
    = ask_chunk_size (Z.of_nat (length tickers)) rest
  /\ split_script header output_dir base_name tickers (Some v :: rest)
    = split_script header output_dir base_name tickers rest
  /\ split_script header output_dir base_name tickers [Some v] = []
  /\ (forall answers k, ask_chunk_size (Z.of_nat (length tickers)) answers = Some k ->
        (1 <= k <= Z.of_nat (length tickers))%Z).
Proof.
  assert (Hask : forall r, ask_chunk_size (Z.of_nat (length tickers)) (Some v :: r)
                         = ask_chunk_size (Z.of_nat (length tickers)) r).
  { intros r. simpl.
    destruct (v <=? 0)%Z eqn:E1; [reflexivity|].
    destruct (v >? Z.of_nat (length tickers))%Z eqn:E2; [reflexivity|]. lia. }
  split; [apply Hask|].
  split; [unfold split_script; rewrite Hask; reflexivity|].
  split; [unfold split_script; rewrite Hask; simpl; destruct (length tickers =? 0)%nat; reflexivity|].
  intros answers k. apply ask_chunk_size_bounds.
Qed.

(* ------------------------------------------------------------------ *)
(** ** C9: export *)

(** C9 (a defect of the lai variant): on a file system without
    [./output_reports], the batch variant's [export_to_csv] creates the
    directory and writes [./output_reports/AAPL_financials.csv] with
    header [Metric,Value], while the lai variant's [export_to_csv],
    which does not call [ensure_output_dir], raises. *)
Theorem export_lai_missing_dir :
  (exists fs', export_to_csv fs0 "AAPL" [("BVPS", PFloat (Fin 10))] = Some fs'
     /\ "./output_reports" ∈ fs_dirs fs'
     /\ fs_files fs' !! "./output_reports/AAPL_financials.csv"
        = Some {| csv_header := ["Metric"; "Value"]; csv_rows := [("BVPS", PFloat (Fin 10))] |})
  /\ export_to_csv_lai fs0 "AAPL" [("BVPS", PFloat (Fin 10))] = None.
Proof.
  split.
  - eexists. split; [vm_compute; reflexivity|]. split.
    + vm_compute. right. left.
    + vm_compute. reflexivity.
  - vm_compute. reflexivity.
Qed.

(* ------------------------------------------------------------------ *)
(** ** Witnesses: the theorems applied at concrete inputs *)

Lemma is_supported_ticker_always_witness :
  exists suffix, In suffix SUPPORTED_SUFFIXES /\ endswith "0700.HK" suffix = true.
Proof.
  apply (proj1 (proj1 (is_supported_ticker_always "0700.HK"))). reflexivity.
Defined.

Lemma round_metric_spec_witness :
  round_metric (PStr "n/a") = PStr "n/a"
  /\ exists r, round_metric (PFloat (Fin (123456 # 10000))) = PFloat (Fin (r # 100))
       /\ (2 * Z.abs (100 * 123456 - r * 10000) <= 10000)%Z.
Proof.
  split.
  - apply (proj1 (round_metric_spec (PStr "n/a"))). reflexivity.
  - apply (proj1 (proj2 (proj2 (round_metric_spec (PFloat (Fin (123456 # 10000))))))
             (123456 # 10000)%Q).
    reflexivity.
Defined.

Lemma bvps_of_extraction_witness :
  exists tr m, fetch_metrics provider0 now0 [] = (tr, Some m)
    /\ (forall x y, to_float (m_total_equity m) = Some x ->
          to_float (m_shares_outstanding_stmt m) = Some y ->
          m_bvps m = PFloat (fdiv x y))
    /\ m_bvps m = PFloat (fdiv (Fin 1000) (Fin 100)).
Proof.
  eexists; eexists; split; [cbv; reflexivity|].
  split; [|reflexivity].
  eapply (bvps_of_extraction provider0 now0). vm_compute. reflexivity.
Defined.

Lemma summary_rows_fixed_witness :
  exists tr df, fetch_financial_data provider0 now0 = (tr, Some df) /\ length df = 15
    /\ ticker_outcome "AAPL" env_ok <> EmptyData.
Proof.
  eexists; eexists; split; [cbv; reflexivity|].
  split.
  - eapply (proj1 summary_rows_fixed provider0 now0). vm_compute. reflexivity.
  - apply (proj2 summary_rows_fixed).
Defined.

Lemma lai_last_close_window_witness :
  exists tr df, fetch_financial_data_lai provider0 now0 = (tr, Some df)
    /\ CHistory (year now0 - 3, 1, 1)%Z (year now0, 1, 1)%Z ∈ tr
    /\ exists hist d c,
         p_history provider0 (year now0 - 3, 1, 1)%Z (year now0, 1, 1)%Z = Some hist
         /\ last hist = Some (d, c)
         /\ assoc "Last 3 Years Close Price" df = Some (round_metric c).
Proof.
  eexists; eexists; split; [cbv; reflexivity|].
  eapply (lai_last_close_window provider0 now0). vm_compute. reflexivity.
Defined.

Lemma run_partition_witness :
  let sched := [("MSFT", env_down); ("AAPL", env_ok)] in
  (is_Some (results (run_schedule sched) !! "AAPL") /\ "AAPL" ∉ failed (run_schedule sched))
  \/ (results (run_schedule sched) !! "AAPL" = None /\ "AAPL" ∈ failed (run_schedule sched)).
Proof.
  apply (run_partition [("AAPL", env_ok); ("MSFT", env_down)]).
  - apply perm_swap.
  - intros t e1 e2 H1 H2.
    apply elem_of_cons in H1 as [H1|H1]; [|apply elem_of_cons in H1 as [H1|H1]];
      [| |apply elem_of_nil in H1; contradiction];
    (apply elem_of_cons in H2 as [H2|H2]; [|apply elem_of_cons in H2 as [H2|H2]];
      [| |apply elem_of_nil in H2; contradiction]);
    simplify_eq; reflexivity.
  - exists env_ok. left.
Defined.

Lemma split_files_correct_witness :
  concat (map chunk_rows (split_files "Ticker" "." "tickers"
            ["A"; "B"; "C"; "D"; "E"; "F"; "G"; "H"; "I"; "J"] 3))
  = ["A"; "B"; "C"; "D"; "E"; "F"; "G"; "H"; "I"; "J"]
  /\ map (fun f => length (chunk_rows f))
       (split_files "Ticker" "." "tickers" ["A"; "B"; "C"; "D"; "E"; "F"; "G"; "H"; "I"; "J"] 3)
     = [3; 3; 3; 1].
Proof.
  split; [|reflexivity].
  apply (split_files_correct "Ticker" "." "tickers"
           ["A"; "B"; "C"; "D"; "E"; "F"; "G"; "H"; "I"; "J"] 3); simpl; lia.
Defined.

Lemma chunk_size_rejected_witness :
  split_script "Ticker" "." "tickers" ["A"; "B"] [Some 0%Z] = []
  /\ split_script "Ticker" "." "tickers" ["A"; "B"] [Some 3%Z] = [].
Proof.
  split.
  - apply (chunk_size_rejected "Ticker" "." "tickers" ["A"; "B"] 0%Z []). lia.
  - apply (chunk_size_rejected "Ticker" "." "tickers" ["A"; "B"] 3%Z []). simpl. lia.
Defined.

(* ================================================================== *)
(** * Further properties of the code *)

(* ------------------------------------------------------------------ *)
(** ** The pipeline *)

Lemma is_supported_ticker_true (ticker : string) : is_supported_ticker ticker = true.
Proof.
  unfold is_supported_ticker. apply existsb_exists. exists "". split.
  - unfold SUPPORTED_SUFFIXES. simpl. tauto.
  - apply endswith_empty.
Qed.

Lemma fetch_financial_data_nonempty (p : Provider) (now : Date) (df : Summary) :
  snd (fetch_financial_data p now) = Some df -> df <> [].
Proof.
  rewrite fetch_financial_data_unfold.
  destruct (fetch_metrics p now []) as [tr [m|]]; simpl; intros H; [|discriminate].
  injection H as <-. discriminate.
Qed.

(** The terminal state of a worker: never [Rejected]; [Invalid] exactly
    when the validation lookup raised or had no [regularMarketPrice];
    otherwise [Succeeded] with the extracted summary, or [FetchFailed]
    when the extraction returned [None]. *)
Theorem ticker_outcome_cases (ticker : string) (env : WorkerEnv) :
  ticker_outcome ticker env <> Rejected
  /\ (ticker_outcome ticker env = Invalid <-> validate_ticker (w_validate_info env) = false)
  /\ (forall df, ticker_outcome ticker env = Succeeded df <->
        validate_ticker (w_validate_info env) = true
        /\ snd (fetch_financial_data (w_provider env) (w_now env)) = Some df)
  /\ (ticker_outcome ticker env = FetchFailed <->
        validate_ticker (w_validate_info env) = true
        /\ snd (fetch_financial_data (w_provider env) (w_now env)) = None).
Proof.
  unfold ticker_outcome. rewrite is_supported_ticker_true. simpl.
  pose proof (fetch_financial_data_nonempty (w_provider env) (w_now env)) as Hne.
  destruct (validate_ticker (w_validate_info env)); simpl.
  - destruct (snd (fetch_financial_data (w_provider env) (w_now env))) as [df0|].
    + rewrite bool_decide_false by (apply Hne; reflexivity).
      split; [discriminate|]. split; [split; [discriminate|intros H; discriminate H]|].
      split; [|split; [discriminate|intros [_ H]; discriminate H]].
      intros df. split; [intros H; injection H as <-; auto|intros [_ H]; injection H as <-; reflexivity].
    + split; [discriminate|]. split; [split; [discriminate|intros H; discriminate H]|].
      split; [|split; auto].
      intros df. split; [discriminate|intros [_ H]; discriminate H].
  - split; [discriminate|]. split; [split; auto|].
    split; [|split; [discriminate|intros [H _]; discriminate H]].
    intros df. split; [discriminate|intros [H _]; discriminate H].
Qed.

Lemma process_ticker_equiv (w : string * WorkerEnv) (st1 st2 : Shared) :
  shared_equiv st1 st2 ->
  shared_equiv (process_ticker (fst w) (snd w) st1) (process_ticker (fst w) (snd w) st2).
Proof.
  intros [Hr Hf]. unfold process_ticker, record_outcome, shared_equiv.
  destruct (ticker_outcome (fst w) (snd w)); simpl; rewrite ?Hr; split; auto;
    apply Permutation_app_tail; exact Hf.
Qed.

Lemma run_equiv (l : list (string * WorkerEnv)) (st1 st2 : Shared) :
  shared_equiv st1 st2 ->
  shared_equiv (foldl (fun st w => process_ticker (fst w) (snd w) st) st1 l)
               (foldl (fun st w => process_ticker (fst w) (snd w) st) st2 l).
Proof.
  revert st1 st2. induction l as [|w l IH]; intros st1 st2 H; simpl; [exact H|].
  apply IH, process_ticker_equiv, H.
Qed.

Lemma process_ticker_swap (w1 w2 : string * WorkerEnv) (st : Shared) :
  fst w1 <> fst w2 ->
  shared_equiv (process_ticker (fst w2) (snd w2) (process_ticker (fst w1) (snd w1) st))
               (process_ticker (fst w1) (snd w1) (process_ticker (fst w2) (snd w2) st)).
Proof.
  intros Hne. unfold process_ticker, record_outcome, shared_equiv.
  destruct (ticker_outcome (fst w1) (snd w1)), (ticker_outcome (fst w2) (snd w2));
    simpl; split; try reflexivity;
    try (apply insert_insert_ne; congruence);
    rewrite <- ?app_assoc; simpl; apply Permutation_app_head; apply perm_swap.
Qed.

Lemma run_perm (l1 l2 : list (string * WorkerEnv)) :
  l1 ≡ₚ l2 -> NoDup (map fst l1) -> forall st,
  shared_equiv (foldl (fun st w => process_ticker (fst w) (snd w) st) st l1)
               (foldl (fun st w => process_ticker (fst w) (snd w) st) st l2).
Proof.
  induction 1 as [|w l1 l2 Hp IH|w1 w2 l|l1 l2 l3 H12 IH12 H23 IH23]; intros Hnd st; simpl.
  - split; reflexivity.
  - apply IH. simpl in Hnd. inversion Hnd; assumption.
  - apply run_equiv. simpl in Hnd. inversion Hnd as [|? ? Hn1 Hnd']; subst.
    apply process_ticker_swap. intros Heq. apply Hn1. rewrite Heq. left.
  - destruct (IH12 Hnd st) as [Ha Hb].
    assert (Hnd2 : NoDup (map fst l2)).
    { apply (NoDup_Permutation_proper _ _ (Permutation_map fst H12)), Hnd. }
    destruct (IH23 Hnd2 st) as [Hc Hd].
    split; [congruence|etrans; eassumption].
Qed.

(** For a ticker list without repetition, the thread schedule does not
    matter: every schedule yields the same [results] dict, and [failed]
    lists that differ only in their order. *)
Theorem run_schedule_independent (workers sched1 sched2 : list (string * WorkerEnv))
    (Hnd : NoDup (map fst workers))
    (H1 : sched1 ≡ₚ workers) (H2 : sched2 ≡ₚ workers) :
  results (run_schedule sched1) = results (run_schedule sched2)
  /\ failed (run_schedule sched1) ≡ₚ failed (run_schedule sched2).
Proof.
  apply run_perm.
  - etrans; [exact H1|symmetry; exact H2].
  - apply (NoDup_Permutation_proper _ _ (Permutation_map fst H1)), Hnd.
Qed.

Lemma run_counts_gen (l : list (string * WorkerEnv)) (st : Shared) :
  NoDup (map fst l) ->
  (forall w, In w l -> results st !! fst w = None) ->
  let st' := foldl (fun st w => process_ticker (fst w) (snd w) st) st l in
  size (results st') = size (results st)
    + length (List.filter (fun w => is_success (ticker_outcome (fst w) (snd w))) l)
  /\ length (failed st') = length (failed st)
    + length (List.filter (fun w => negb (is_success (ticker_outcome (fst w) (snd w)))) l).
Proof.
  revert st. induction l as [|w l IH]; intros st Hnd Hfree; simpl; [lia|].
  inversion Hnd as [|? ? Hn Hnd']; subst.
  assert (Hfree' : forall w', In w' l ->
            results (process_ticker (fst w) (snd w) st) !! fst w' = None).
  { intros w' Hw'. unfold process_ticker, record_outcome.
    destruct (ticker_outcome (fst w) (snd w)); simpl; try (apply Hfree; right; exact Hw').
    rewrite lookup_insert_ne.
    - apply Hfree. right. exact Hw'.
    - intros Heq. apply Hn. rewrite Heq. apply list_elem_of_In, in_map, Hw'. }
  destruct (IH _ Hnd' Hfree') as [H1 H2].
  rewrite H1, H2. unfold process_ticker, record_outcome.
  destruct (ticker_outcome (fst w) (snd w)) eqn:Eo; simpl;
    rewrite ?length_app; simpl; try lia.
  rewrite map_size_insert_None by (apply Hfree; left; reflexivity). lia.
Qed.

(** For a ticker list without repetition, after the join the [results]
    dict holds one entry per worker that reached [Succeeded], and the
    [failed] list one entry per worker that did not, whatever the
    schedule. *)
Theorem run_schedule_counts (sched : list (string * WorkerEnv))
    (Hnd : NoDup (map fst sched)) :
  size (results (run_schedule sched))
    = length (List.filter (fun w => is_success (ticker_outcome (fst w) (snd w))) sched)
  /\ length (failed (run_schedule sched))
    = length (List.filter (fun w => negb (is_success (ticker_outcome (fst w) (snd w)))) sched).
Proof.
  destruct (run_counts_gen sched empty_shared Hnd) as [H1 H2].
  - intros w _. apply lookup_empty.
  - unfold run_schedule. rewrite H1, H2. simpl. rewrite map_size_empty. lia.
Qed.

Lemma run_schedule_independent_witness :
  let workers := [("AAPL", env_ok); ("MSFT", env_down)] in
  NoDup (map fst workers)
  /\ results (run_schedule [("MSFT", env_down); ("AAPL", env_ok)])
     = results (run_schedule workers)
  /\ failed (run_schedule [("MSFT", env_down); ("AAPL", env_ok)])
     ≡ₚ failed (run_schedule workers).
Proof.
  intros workers.
  assert (Hnd : NoDup (map fst workers)) by (apply (bool_decide_unpack _); vm_compute; exact I).
  split; [exact Hnd|].
  apply (run_schedule_independent workers); [exact Hnd|apply perm_swap|reflexivity].
Defined.

Lemma run_schedule_counts_witness :
  NoDup (map fst [("AAPL", env_ok); ("MSFT", env_down)])
  /\ size (results (run_schedule [("AAPL", env_ok); ("MSFT", env_down)])) = 1
  /\ length (failed (run_schedule [("AAPL", env_ok); ("MSFT", env_down)])) = 1.
Proof.
  assert (Hnd : NoDup (map fst [("AAPL", env_ok); ("MSFT", env_down)]))
    by (apply (bool_decide_unpack _); vm_compute; exact I).
  destruct (run_schedule_counts _ Hnd) as [H1 H2].
  split; [exact Hnd|]. rewrite H1, H2. split; vm_compute; reflexivity.
Defined.

(* ------------------------------------------------------------------ *)
(** ** The extraction: its calls and when it succeeds *)

(** Both variants issue a prefix of the same five calls, in program
    order, and the same one for the same provider; the whole prefix is
    issued when they succeed.  They succeed on exactly the same
    providers: those where the four statement and info calls return,
    the BVPS division does not raise, and the history call returns at
    least one row. *)
Theorem extraction_trace_and_success (p : Provider) (now : Date) :
  (exists n, fst (fetch_financial_data p now) = firstn n (extraction_calls now))
  /\ fst (fetch_financial_data_lai p now) = fst (fetch_financial_data p now)
  /\ (is_Some (snd (fetch_financial_data p now)) ->
        fst (fetch_financial_data p now) = extraction_calls now)
  /\ (is_Some (snd (fetch_financial_data_lai p now)) <->
        is_Some (snd (fetch_financial_data p now)))
  /\ (is_Some (snd (fetch_financial_data p now)) <->
        exists income balance cash info hist,
          p_financials p = Some income /\ p_balance_sheet p = Some balance
          /\ p_cashflow p = Some cash /\ p_info p = Some info
          /\ is_Some (compute_bvps (stmt_get balance "Stockholders Equity" PNone)
                (stmt_get balance "Share Issued" (info_get info "sharesOutstanding")))
          /\ p_history p (history_start now) (history_end now) = Some hist
          /\ hist <> []).
Proof.
  unfold fetch_financial_data, fetch_financial_data_lai, fetch_metrics, mbind, mret,
    fetch_bind, fetch_ret, fbind, fret, call, flift, extraction_calls.
  simpl.
  destruct (p_financials p) as [inc|];
    [|simpl; split; [exists 1; reflexivity|];
      split; [reflexivity|]; split; [intros [? H]; discriminate H|];
      split; [reflexivity|]; split; [intros [? H]; discriminate H|];
      intros (? & ? & ? & ? & ? & H & _); discriminate H].
  destruct (p_balance_sheet p) as [bal|];
    [|simpl; split; [exists 2; reflexivity|];
      split; [reflexivity|]; split; [intros [? H]; discriminate H|];
      split; [reflexivity|]; split; [intros [? H]; discriminate H|];
      intros (? & ? & ? & ? & ? & _ & H & _); discriminate H].
  destruct (p_cashflow p) as [cash|];
    [|simpl; split; [exists 3; reflexivity|];
      split; [reflexivity|]; split; [intros [? H]; discriminate H|];
      split; [reflexivity|]; split; [intros [? H]; discriminate H|];
      intros (? & ? & ? & ? & ? & _ & _ & H & _); discriminate H].
  destruct (p_info p) as [info|];
    [|simpl; split; [exists 4; reflexivity|];
      split; [reflexivity|]; split; [intros [? H]; discriminate H|];
      split; [reflexivity|]; split; [intros [? H]; discriminate H|];
      intros (? & ? & ? & ? & ? & _ & _ & _ & H & _); discriminate H].
  simpl.
  destruct (compute_bvps _ _) as [bvps|] eqn:Eb;
    [|simpl; split; [exists 4; reflexivity|];
      split; [reflexivity|]; split; [intros [? H]; discriminate H|];
      split; [reflexivity|]; split; [intros [? H]; discriminate H|];
      intros (i' & b' & c' & f' & h' & Hi & Hb & Hc & Hf & [v Hv] & _);
      simplify_eq; congruence].
  simpl.
  destruct (p_history p (history_start now) (history_end now)) as [hist|] eqn:Eh;
    [|simpl; split; [exists 5; reflexivity|];
      split; [reflexivity|]; split; [intros [? H]; discriminate H|];
      split; [reflexivity|]; split; [intros [? H]; discriminate H|];
      intros (? & ? & ? & ? & ? & _ & _ & _ & _ & _ & H & _); discriminate H].
  simpl.
  destruct hist as [|r rs].
  - simpl. split; [exists 5; reflexivity|].
    split; [reflexivity|]. split; [intros [? H]; discriminate H|].
    split; [reflexivity|]. split; [intros [? H]; discriminate H|].
    intros (? & ? & ? & ? & h' & _ & _ & _ & _ & _ & H & Hne). congruence.
  - destruct (iloc_last (r :: rs)) as [c|] eqn:El; [|exfalso; exact (iloc_last_cons r rs El)].
    simpl. split; [exists 5; reflexivity|].
    split; [reflexivity|]. split; [reflexivity|].
    split; [split; intros _; eexists; reflexivity|].
    split; [intros _|intros _; eexists; reflexivity].
    exists inc, bal, cash, info, (r :: rs).
    repeat split; try reflexivity; try discriminate; rewrite Eb; eexists; reflexivity.
Qed.

(* ------------------------------------------------------------------ *)
(** ** Exporting the results of the batch [main] *)

Lemma string_length_app (a b : string) :
  String.length (a +:+ b) = (String.length a + String.length b)%nat.
Proof. induction a as [|c a IH]; simpl; [reflexivity|]. rewrite IH. reflexivity. Qed.

Lemma string_app_cancel_r (s1 s2 t : string) : s1 +:+ t = s2 +:+ t -> s1 = s2.
Proof.
  revert s2. induction s1 as [|c1 s1 IH]; intros [|c2 s2] H.
  - reflexivity.
  - apply (f_equal String.length) in H. rewrite !string_length_app in H. simpl in H. lia.
  - apply (f_equal String.length) in H. rewrite !string_length_app in H. simpl in H. lia.
  - change (String.String c1 (s1 +:+ t) = String.String c2 (s2 +:+ t)) in H.
    injection H as -> H. f_equal. apply IH, H.
Qed.

Lemma has_slash_app (a b : string) : has_slash (a +:+ b) = has_slash a || has_slash b.
Proof. induction a as [|c a IH]; simpl; [reflexivity|]. rewrite IH, orb_assoc. reflexivity. Qed.













(* ------------------------------------------------------------------ *)
(** ** The lai [main] *)


(* ------------------------------------------------------------------ *)
(** ** Reading the ticker CSV of the batch [main] *)

Section DropFrontFacts.
Variable p1 : ascii -> bool.
Variable p2 : ascii -> ascii -> bool.
Variable p3 : ascii -> ascii -> ascii -> bool.

Lemma drop_front_stop (a : ascii) (l : list ascii) :
  p1 a = false ->
  (forall b l2, l = b :: l2 -> p2 a b = false) ->
  (forall b c l3, l = b :: c :: l3 -> p3 a b c = false) ->
  drop_front p1 p2 p3 (a :: l) = a :: l
  /\ (forall w rest, one_char p1 p2 p3 w = true -> a :: l <> app w rest).
Proof.
  intros H1 H2 H3. split.
  - simpl. rewrite H1. destruct l as [|b [|c l3]]; [reflexivity| |].
    + rewrite (H2 b [] eq_refl). reflexivity.
    + rewrite (H2 b (c :: l3) eq_refl), (H3 b c l3 eq_refl). reflexivity.
  - intros w rest Hw Heq.
    destruct w as [|x [|y [|z [|t w]]]]; simpl in Hw; try discriminate Hw;
      simpl in Heq; inversion Heq; subst.
    + congruence.
    + rewrite (H2 y rest eq_refl) in Hw. discriminate Hw.
    + rewrite (H3 y z rest eq_refl) in Hw. discriminate Hw.
Qed.

Lemma drop_front_spec (l : list ascii) :
  exists pre, l = app pre (drop_front p1 p2 p3 l)
    /\ runs_of (one_char p1 p2 p3) pre
    /\ (forall w rest, one_char p1 p2 p3 w = true -> drop_front p1 p2 p3 l <> app w rest).
Proof.
  induction l as [l IH] using (well_founded_induction (Wf_nat.well_founded_ltof _ (@length ascii))).
  destruct l as [|a l1].
  - exists []. split; [reflexivity|]. split; [constructor|].
    intros w rest Hw H. destruct w; [discriminate Hw|discriminate H].
  - destruct (p1 a) eqn:E1.
    + destruct (IH l1) as (pre & Hl & Hpre & Hno); [unfold Wf_nat.ltof; simpl; lia|].
      assert (Hs : drop_front p1 p2 p3 (a :: l1) = drop_front p1 p2 p3 l1)
        by (simpl; rewrite E1; reflexivity).
      exists (a :: pre). rewrite Hs. split; [simpl; congruence|]. split; [|exact Hno].
      apply (runs_cons _ [a] pre); [exact E1|exact Hpre].
    + destruct l1 as [|b l2].
      * destruct (drop_front_stop a [] E1) as [Hd Hn];
          [intros ? ? H; discriminate H|intros ? ? ? H; discriminate H|].
        exists []. rewrite Hd. split; [reflexivity|]. split; [constructor|exact Hn].
      * destruct (p2 a b) eqn:E2.
        -- destruct (IH l2) as (pre & Hl & Hpre & Hno); [unfold Wf_nat.ltof; simpl; lia|].
           assert (Hs : drop_front p1 p2 p3 (a :: b :: l2) = drop_front p1 p2 p3 l2)
             by (simpl; rewrite E1, E2; reflexivity).
           exists (a :: b :: pre). rewrite Hs. split; [simpl; congruence|]. split; [|exact Hno].
           apply (runs_cons _ [a; b] pre); [exact E2|exact Hpre].
        -- destruct l2 as [|c l3].
           ++ destruct (drop_front_stop a [b] E1) as [Hd Hn];
                [intros ? ? H; injection H as <- <-; exact E2|intros ? ? ? H; discriminate H|].
              exists []. rewrite Hd. split; [reflexivity|]. split; [constructor|exact Hn].
           ++ destruct (p3 a b c) eqn:E3.
              ** destruct (IH l3) as (pre & Hl & Hpre & Hno); [unfold Wf_nat.ltof; simpl; lia|].
                 assert (Hs : drop_front p1 p2 p3 (a :: b :: c :: l3) = drop_front p1 p2 p3 l3)
                   by (simpl; rewrite E1, E2, E3; reflexivity).
                 exists (a :: b :: c :: pre). rewrite Hs. split; [simpl; congruence|].
                 split; [|exact Hno].
                 apply (runs_cons _ [a; b; c] pre); [exact E3|exact Hpre].
              ** destruct (drop_front_stop a (b :: c :: l3) E1) as [Hd Hn];
                   [intros ? ? H; injection H as <- _; exact E2
                   |intros ? ? ? H; injection H as <- <- _; exact E3|].
                 exists []. rewrite Hd. split; [reflexivity|]. split; [constructor|exact Hn].
Qed.

Lemma drop_front_fixed (l : list ascii) :
  (forall w rest, one_char p1 p2 p3 w = true -> l <> app w rest) ->
  drop_front p1 p2 p3 l = l.
Proof.
  intros H. destruct l as [|a l]; [reflexivity|].
  apply drop_front_stop.
  - destruct (p1 a) eqn:E; [|reflexivity]. exfalso. exact (H [a] l E eq_refl).
  - intros b l2 ->. destruct (p2 a b) eqn:E; [|reflexivity].
    exfalso. exact (H [a; b] l2 E eq_refl).
  - intros b c l3 ->. destruct (p3 a b c) eqn:E; [|reflexivity].
    exfalso. exact (H [a; b; c] l3 E eq_refl).
Qed.

Hypothesis H12 : forall a b, p2 a b = true -> p1 a = false.
Hypothesis H13 : forall a b c, p3 a b c = true -> p1 a = false.
Hypothesis H23 : forall a b c, p3 a b c = true -> p2 a b = false.

Lemma drop_front_one (w rest : list ascii) :
  one_char p1 p2 p3 w = true ->
  drop_front p1 p2 p3 (app w rest) = drop_front p1 p2 p3 rest.
Proof.
  intros Hw. destruct w as [|x [|y [|z [|t w]]]]; simpl in Hw; try discriminate Hw; simpl.
  - rewrite Hw. reflexivity.
  - rewrite (H12 x y Hw), Hw. reflexivity.
  - rewrite (H13 x y z Hw), (H23 x y z Hw), Hw. reflexivity.
Qed.

Lemma drop_front_runs (p rest : list ascii) :
  runs_of (one_char p1 p2 p3) p ->
  drop_front p1 p2 p3 (app p rest) = drop_front p1 p2 p3 rest.
Proof.
  induction 1 as [|w r Hw _ IH]; [reflexivity|].
  rewrite <- app_assoc, drop_front_one by exact Hw. exact IH.
Qed.
End DropFrontFacts.

Lemma runs_of_app (P : list ascii -> bool) (a b : list ascii) :
  runs_of P a -> runs_of P b -> runs_of P (app a b).
Proof.
  induction 1 as [|w r Hw _ IH]; intros Hb; [exact Hb|].
  rewrite <- app_assoc. constructor; [exact Hw|exact (IH Hb)].
Qed.

Lemma is_py_space_range (a : ascii) :
  is_py_space a = true -> 9 <= nat_of_ascii a <= 32.
Proof.
  unfold is_py_space. cbv zeta. intros H.
  rewrite orb_true_iff, !andb_true_iff, !Nat.leb_le in H. lia.
Qed.

Lemma is_ws2_range (a b : ascii) :
  is_ws2 a b = true -> nat_of_ascii a = 194 /\ 133 <= nat_of_ascii b <= 160.
Proof.
  unfold is_ws2. intros H.
  rewrite andb_true_iff, orb_true_iff, !Nat.eqb_eq in H. lia.
Qed.

Lemma is_ws3_range (a b c : ascii) :
  is_ws3 a b c = true ->
  225 <= nat_of_ascii a <= 227 /\ 128 <= nat_of_ascii b <= 154
  /\ 128 <= nat_of_ascii c <= 175.
Proof.
  unfold is_ws3. cbv zeta. intros H.
  rewrite !orb_true_iff, !andb_true_iff, !orb_true_iff, !andb_true_iff,
    !Nat.eqb_eq, !Nat.leb_le in H.
  lia.
Qed.

Lemma not_py_space (a : ascii) :
  ~ (9 <= nat_of_ascii a <= 32) -> is_py_space a = false.
Proof.
  intros H. destruct (is_py_space a) eqn:E; [|reflexivity].
  apply is_py_space_range in E. contradiction.
Qed.

Lemma not_ws2 (a b : ascii) :
  nat_of_ascii a <> 194 -> is_ws2 a b = false.
Proof.
  intros H. destruct (is_ws2 a b) eqn:E; [|reflexivity].
  apply is_ws2_range in E. lia.
Qed.

Lemma lstrip_ws_seq (p rest : list ascii) :
  ws_seq p -> lstrip_list (app p rest) = lstrip_list rest.
Proof.
  apply drop_front_runs.
  - intros a b H. apply is_ws2_range in H. apply not_py_space. lia.
  - intros a b c H. apply is_ws3_range in H. apply not_py_space. lia.
  - intros a b c H. apply is_ws3_range in H. apply not_ws2. lia.
Qed.

Lemma ws_char_length (w : list ascii) :
  ws_char w = true -> length w <= 3.
Proof.
  intros H. destruct w as [|a [|b [|c [|d w]]]]; simpl in *; try discriminate H; lia.
Qed.

(** The characters [rstrip_rev] drops are the whitespace characters read
    backwards. *)
Lemma one_char_rev (w : list ascii) :
  one_char is_py_space (fun a b => is_ws2 b a) (fun a b c => is_ws3 c b a) w
  = ws_char (rev w).
Proof.
  destruct w as [|a [|b [|c [|d w]]]]; try reflexivity.
  simpl one_char. symmetry.
  destruct (ws_char (rev (a :: b :: c :: d :: w))) eqn:E; [|reflexivity].
  apply ws_char_length in E. rewrite length_rev in E. simpl in E. lia.
Qed.

Lemma runs_rev (p : list ascii) :
  runs_of (one_char is_py_space (fun a b => is_ws2 b a) (fun a b c => is_ws3 c b a)) p ->
  ws_seq (rev p).
Proof.
  induction 1 as [|w r Hw _ IH]; [constructor|].
  rewrite rev_app_distr. apply runs_of_app; [exact IH|].
  rewrite <- (app_nil_r (rev w)). constructor; [|constructor].
  rewrite <- one_char_rev. exact Hw.
Qed.

(** [str.strip()] removes exactly the leading and the trailing
    whitespace: the string is the result with only whitespace characters
    before and after it, the result neither starts nor ends with the
    encoding of a whitespace character, and stripping again changes
    nothing. *)
Theorem py_strip_spec (s : string) :
  let x := String.list_ascii_of_string (py_strip s) in
  (exists pre post, String.list_ascii_of_string s = app pre (app x post)
     /\ ws_seq pre /\ ws_seq post)
  /\ (forall w rest, ws_char w = true -> x <> app w rest)
  /\ (forall w rest, ws_char w = true -> x <> app rest w)
  /\ py_strip (py_strip s) = py_strip s.
Proof.
  intros x.
  assert (Hx : x = rev (rstrip_rev (rev (lstrip_list (String.list_ascii_of_string s))))).
  { unfold x, py_strip. apply String.list_ascii_of_string_of_list_ascii. }
  destruct (drop_front_spec is_py_space is_ws2 is_ws3 (String.list_ascii_of_string s))
    as (pre & Hl & Hpre & Hno).
  fold lstrip_list in Hl, Hno. fold ws_char in Hpre, Hno.
  set (m := lstrip_list (String.list_ascii_of_string s)) in *.
  destruct (drop_front_spec is_py_space (fun a b => is_ws2 b a) (fun a b c => is_ws3 c b a)
              (rev m)) as (pr & Hm & Hpr & Hnor).
  fold rstrip_rev in Hm, Hnor.
  assert (Hmx : m = app x (rev pr)).
  { rewrite <- (rev_involutive m), Hm, rev_app_distr, Hx. reflexivity. }
  assert (Hpre' : forall w rest, ws_char w = true -> x <> app w rest).
  { intros w rest Hw Hxw. apply (Hno w (app rest (rev pr)) Hw).
    rewrite Hmx, Hxw, app_assoc. reflexivity. }
  assert (Hsuf : forall w rest, ws_char w = true -> x <> app rest w).
  { intros w rest Hw Hxw. apply (Hnor (rev w) (rev rest)).
    - rewrite one_char_rev, rev_involutive. exact Hw.
    - rewrite <- rev_app_distr, <- Hxw, Hx, rev_involutive. reflexivity. }
  split; [|split; [exact Hpre'|split; [exact Hsuf|]]].
  - exists pre, (rev pr). split; [|split; [exact Hpre|apply runs_rev, Hpr]].
    rewrite Hl at 1. rewrite Hmx. reflexivity.
  - unfold py_strip at 1. fold x.
    unfold lstrip_list. rewrite (drop_front_fixed _ _ _ x Hpre').
    unfold rstrip_rev. rewrite drop_front_fixed.
    + rewrite rev_involutive. unfold x. apply String.string_of_list_ascii_of_string.
    + intros w rest Hw Hxw. apply (Hsuf (rev w) (rev rest)).
      * rewrite <- one_char_rev. exact Hw.
      * rewrite <- rev_app_distr, <- Hxw, rev_involutive. reflexivity.
Qed.

(** The ticker list read from a CSV file: one ticker per non-empty row
    (blank rows are skipped), taken from the row's first cell and
    stripped, so stripping a ticker again changes nothing; a row whose
    first cell is empty or only whitespace is not skipped and gives the
    empty ticker [""]. *)
Theorem read_tickers_spec (rows : list (list string)) :
  length (read_tickers rows)
    = length (List.filter (fun row => match row with [] => false | _ => true end) rows)
  /\ (forall t, In t (read_tickers rows) -> py_strip t = t)
  /\ (forall c0 rest, In (c0 :: rest) rows -> In (py_strip c0) (read_tickers rows))
  /\ (forall c0 rest, In (c0 :: rest) rows ->
        ws_seq (String.list_ascii_of_string c0) ->
        In "" (read_tickers rows)).
Proof.
  assert (Hin : forall c0 rest, In (c0 :: rest) rows -> In (py_strip c0) (read_tickers rows)).
  { intros c0 rest H. unfold read_tickers. apply in_flat_map. exists (c0 :: rest).
    split; [exact H|left; reflexivity]. }
  split; [|split; [|split; [exact Hin|]]].
  - clear Hin. unfold read_tickers.
    induction rows as [|[|c0 rest] rows IH]; simpl; [reflexivity|exact IH|].
    rewrite IH. reflexivity.
  - intros t Ht. unfold read_tickers in Ht. apply in_flat_map in Ht as ([|c0 rest] & _ & Ht);
      [contradiction|].
    destruct Ht as [<-|[]]. apply (proj2 (proj2 (proj2 (py_strip_spec c0)))).
  - intros c0 rest H Hsp. replace "" with (py_strip c0); [exact (Hin c0 rest H)|].
    unfold py_strip. rewrite <- (app_nil_r (String.list_ascii_of_string c0)).
    rewrite (lstrip_ws_seq _ [] Hsp). reflexivity.
Qed.

(* ------------------------------------------------------------------ *)
(** ** The names of the splitter's output files *)

Lemma list_ascii_of_string_app (a b : string) :
  String.list_ascii_of_string (a +:+ b)
  = app (String.list_ascii_of_string a) (String.list_ascii_of_string b).
Proof. induction a as [|c a IH]; [reflexivity|]. simpl. rewrite IH. reflexivity. Qed.

Lemma has_slash_list (s : string) :
  has_slash s = false <-> ~ In "/"%char (String.list_ascii_of_string s).
Proof.
  induction s as [|c s IH]; simpl; [tauto|].
  rewrite orb_false_iff, IH. split.
  - intros [Hc Hs] [Heq|Hin]; [subst c; discriminate Hc|exact (Hs Hin)].
  - intros H. split.
    + destruct (Ascii.eqb c "/"%char) eqn:E; [|reflexivity].
      apply Ascii.eqb_eq in E. subst c. exfalso. apply H. left. reflexivity.
    + intros Hin. apply H. right. exact Hin.
Qed.

Lemma pretty_N_char_not_slash (x : N) : Ascii.eqb (pretty_N_char x) "/"%char = false.
Proof. unfold pretty_N_char. repeat case_match; reflexivity. Qed.

Lemma has_slash_pretty_N_go (x : N) (s : string) :
  has_slash s = false -> has_slash (pretty_N_go x s) = false.
Proof.
  revert s. induction (N.lt_wf_0 x) as [x _ IH]; intros s Hs.
  destruct (N.eq_dec x 0) as [->|Hx]; [rewrite pretty_N_go_0; exact Hs|].
  rewrite pretty_N_go_step by lia. apply IH.
  - apply N.div_lt; lia.
  - simpl. rewrite pretty_N_char_not_slash. exact Hs.
Qed.

Lemma has_slash_pretty_N (x : N) : has_slash (pretty x) = false.
Proof.
  unfold pretty, pretty_N. case_decide; [reflexivity|].
  apply has_slash_pretty_N_go. reflexivity.
Qed.

Lemma rfind_aux_app (c : ascii) (l1 l2 : list ascii) (i : nat) (acc : option nat) :
  rfind_aux c (app l1 l2) i acc = rfind_aux c l2 (i + length l1) (rfind_aux c l1 i acc).
Proof.
  revert i acc. induction l1 as [|x l1 IH]; intros i acc; simpl.
  - rewrite Nat.add_0_r. reflexivity.
  - rewrite IH. f_equal. lia.
Qed.

Lemma rfind_aux_absent (c : ascii) (l : list ascii) (i : nat) (acc : option nat) :
  ~ In c l -> rfind_aux c l i acc = acc.
Proof.
  revert i acc. induction l as [|x l IH]; intros i acc Hn; simpl; [reflexivity|].
  destruct (Ascii.eqb x c) eqn:E.
  - apply Ascii.eqb_eq in E. subst x. exfalso. apply Hn. left. reflexivity.
  - apply IH. intros Hin. apply Hn. right. exact Hin.
Qed.

Lemma rfind_aux_some (c : ascii) (l : list ascii) (i : nat) (acc : option nat) (d : nat) :
  rfind_aux c l i acc = Some d ->
  acc = Some d \/ (i <= d /\ nth_error l (d - i) = Some c).
Proof.
  revert i acc. induction l as [|x l IH]; intros i acc H; simpl in H; [left; exact H|].
  destruct (IH _ _ H) as [Ha|[Hle Hn]].
  - destruct (Ascii.eqb x c) eqn:E; [|left; exact Ha].
    injection Ha as <-. apply Ascii.eqb_eq in E. subst x. right.
    rewrite Nat.sub_diag. split; reflexivity.
  - right. split; [lia|]. replace (d - i) with (S (d - S i)) by lia. exact Hn.
Qed.

(** [basename] of a path whose last component has no slash. *)
Lemma py_basename_last (a t : string) :
  has_slash t = false -> py_basename (a +:+ "/" +:+ t) = t.
Proof.
  intros Ht. apply has_slash_list in Ht.
  unfold py_basename. rewrite !list_ascii_of_string_app. cbn [String.list_ascii_of_string].
  unfold rfind. rewrite rfind_aux_app. cbn [rfind_aux app].
  rewrite Ascii.eqb_refl, rfind_aux_absent by exact Ht.
  rewrite Nat.add_0_l, skipn_app.
  rewrite skipn_all2 by lia. rewrite Nat.sub_succ_l, Nat.sub_diag by lia. simpl.
  apply String.string_of_list_ascii_of_string.
Qed.

Lemma rfind_aux_after (c : ascii) (l : list ascii) (i : nat) (acc : option nat) (d k : nat) :
  rfind_aux c l i acc = Some d -> nth_error l k = Some c -> i + k <= d.
Proof.
  revert i acc k. induction l as [|x l IH]; intros i acc k H Hk; [destruct k; discriminate Hk|].
  simpl in H. destruct k as [|k]; simpl in Hk.
  - injection Hk as ->. rewrite Ascii.eqb_refl in H.
    destruct (rfind_aux_some _ _ _ _ _ H) as [E|[Hle _]]; [injection E as <-|]; lia.
  - pose proof (IH _ _ _ H Hk). lia.
Qed.

Lemma rfind_aux_keeps (c : ascii) (l : list ascii) (i j : nat) :
  rfind_aux c l i (Some j) <> None.
Proof.
  revert i j. induction l as [|x l IH]; intros i j; simpl; [discriminate|].
  destruct (Ascii.eqb x c); apply IH.
Qed.

Lemma rfind_none (c : ascii) (l : list ascii) : rfind c l = None -> ~ In c l.
Proof.
  intros E Hin. apply in_split in Hin as (u & w & ->). unfold rfind in E.
  rewrite rfind_aux_app in E. cbn [rfind_aux] in E. rewrite Ascii.eqb_refl in E.
  exact (rfind_aux_keeps _ _ _ _ E).
Qed.

Lemma rfind_some_nth (c : ascii) (l : list ascii) (d : nat) :
  rfind c l = Some d -> nth_error l d = Some c.
Proof.
  unfold rfind. intros E. destruct (rfind_aux_some _ _ _ _ _ E) as [E'|[_ E']];
    [discriminate E'|rewrite Nat.sub_0_r in E'; exact E'].
Qed.

Lemma py_basename_no_slash (p : string) : has_slash (py_basename p) = false.
Proof.
  apply has_slash_list. unfold py_basename.
  destruct (rfind "/"%char (String.list_ascii_of_string p)) as [i|] eqn:E.
  - rewrite String.list_ascii_of_string_of_list_ascii. intros Hin.
    apply In_nth_error in Hin as [k Hk]. rewrite nth_error_skipn in Hk.
    pose proof (rfind_aux_after _ _ _ _ _ _ E Hk). lia.
  - apply rfind_none, E.
Qed.

Lemma skipn_nth_error {T : Type} (l : list T) (d : nat) (x : T) :
  nth_error l d = Some x -> skipn d l = x :: skipn (S d) l.
Proof.
  revert d. induction l as [|y l IH]; intros [|d] H; simpl in H; try discriminate H.
  - injection H as ->. reflexivity.
  - simpl. apply IH, H.
Qed.

(** [splitext] of a slash-free name cuts it into the root and an
    extension that is empty or starts with a dot. *)
Lemma py_splitext_root_split (b : string) :
  has_slash b = false ->
  exists ext, String.list_ascii_of_string b
              = app (String.list_ascii_of_string (py_splitext_root b)) ext
    /\ (ext = [] \/ exists e', ext = "."%char :: e').
Proof.
  intros Hb. apply has_slash_list in Hb.
  unfold py_splitext_root.
  assert (Hr : rfind "/"%char (String.list_ascii_of_string b) = None)
    by (unfold rfind; apply rfind_aux_absent, Hb).
  rewrite Hr.
  destruct (rfind "."%char (String.list_ascii_of_string b)) as [d|] eqn:Ed.
  - destruct (Nat.leb 0 d && _).
    + exists (skipn d (String.list_ascii_of_string b)).
      rewrite String.list_ascii_of_string_of_list_ascii, firstn_skipn.
      split; [reflexivity|]. right. eexists.
      apply skipn_nth_error, rfind_some_nth, Ed.
    + exists []. rewrite app_nil_r. split; [reflexivity|left; reflexivity].
  - exists []. rewrite app_nil_r. split; [reflexivity|left; reflexivity].
Qed.

Lemma split_base_name_no_slash (file_path : string) :
  has_slash (split_base_name file_path) = false.
Proof.
  unfold split_base_name.
  pose proof (py_basename_no_slash file_path) as Hb.
  destruct (py_splitext_root_split _ Hb) as (ext & Hs & _).
  apply has_slash_list. apply has_slash_list in Hb. intros Hin. apply Hb.
  rewrite Hs. apply in_or_app. left. exact Hin.
Qed.

Lemma part_path_inj (output_dir base_name : string) (i j : nat) :
  part_path output_dir base_name i = part_path output_dir base_name j -> i = j.
Proof.
  unfold part_path. intros H.
  apply (inj (String.app output_dir)), (inj (String.app "/")), (inj (String.app base_name)),
    (inj (String.app "_part")) in H.
  apply string_app_cancel_r, (inj pretty) in H. lia.
Qed.

(** The splitter never writes to its input file: no output name
    [{output_dir}/{base_name}_part{i+1}.csv] built from a path equals the
    path, whatever its directory or extension. *)
Lemma part_path_not_input (file_path : string) (i : nat) :
  part_path (split_output_dir file_path) (split_base_name file_path) i <> file_path.
Proof.
  intros H. pose proof (split_base_name_no_slash file_path) as Hbn.
  set (b := split_base_name file_path) in *.
  set (sfx := "_part" +:+ pretty (N.of_nat (i + 1)) +:+ ".csv").
  assert (Hsfx : has_slash sfx = false).
  { unfold sfx. rewrite !has_slash_app, has_slash_pretty_N. reflexivity. }
  assert (Hbs : has_slash (b +:+ sfx) = false).
  { rewrite has_slash_app, Hsfx, Hbn. reflexivity. }
  assert (Hbase : py_basename file_path = b +:+ sfx).
  { rewrite <- H. unfold part_path. fold sfx. apply py_basename_last, Hbs. }
  pose proof (py_basename_no_slash file_path) as Hb.
  destruct (py_splitext_root_split _ Hb) as (ext & Hs & Hext).
  unfold b, split_base_name in Hbase. rewrite Hbase in Hs at 1.
  rewrite list_ascii_of_string_app in Hs. apply app_inv_head in Hs.
  unfold sfx in Hs. cbn [String.list_ascii_of_string String.append] in Hs.
  destruct Hext as [->|[e' ->]]; discriminate Hs.
Qed.

(** The paths the splitter writes are pairwise distinct, and none of
    them is the input file: a run never overwrites one of its own
    outputs or the CSV it read. *)
Theorem split_output_paths_distinct {A : Type} (header file_path : string)
    (tickers : list A) (k : nat) :
  NoDup (file_path :: map chunk_path
           (split_files header (split_output_dir file_path) (split_base_name file_path)
              tickers k)).
Proof.
  unfold split_files. rewrite map_map. simpl.
  apply NoDup_cons. split.
  - intros Hin. apply list_elem_of_In, in_map_iff in Hin as (i & Hi & _).
    exact (part_path_not_input file_path i Hi).
  - apply NoDup_ListNoDup. apply NoDup_map_NoDup_ForallPairs; [|apply seq_NoDup].
    intros i j _ _. apply part_path_inj.
Qed.

(* ------------------------------------------------------------------ *)
(** ** The chunk-size prompt of the splitter *)

(** The prompt loop accepts exactly the first answer that is an integer
    in [1, len(tickers)]: every earlier answer was not an integer or out
    of range.  When no answer is in range the script ends at the end of
    the input without a chunk size. *)
Theorem ask_chunk_size_first_valid (total : Z) (answers : list (option Z)) :
  (forall k, ask_chunk_size total answers = Some k <->
     exists pre post, answers = app pre (Some k :: post)
       /\ (1 <= k <= total)%Z
       /\ List.Forall (fun a => match a with
                                | Some v => (v <= 0 \/ total < v)%Z
                                | None => True
                                end) pre)
  /\ (ask_chunk_size total answers = None <->
        List.Forall (fun a => match a with
                              | Some v => (v <= 0 \/ total < v)%Z
                              | None => True
                              end) answers).
Proof.
  induction answers as [|a rest IH]; simpl.
  - split.
    + intros k. split; [discriminate|].
      intros (pre & post & Heq & _). destruct pre; discriminate Heq.
    + split; [constructor|reflexivity].
  - destruct IH as [IHs IHn]. split.
    + intros k. destruct a as [v|].
      * destruct (v <=? 0)%Z eqn:E1; [|destruct (v >? total)%Z eqn:E2].
        -- rewrite IHs. split.
           ++ intros (pre & post & -> & Hk & Hpre). exists (Some v :: pre), post.
              split; [reflexivity|]. split; [exact Hk|]. constructor; [lia|exact Hpre].
           ++ intros ([|a pre] & post & Heq & Hk & Hpre); simpl in Heq; injection Heq as Ha Hr.
              ** subst. lia.
              ** subst. inversion Hpre; subst. exists pre, post. auto.
        -- rewrite IHs. split.
           ++ intros (pre & post & -> & Hk & Hpre). exists (Some v :: pre), post.
              split; [reflexivity|]. split; [exact Hk|]. constructor; [lia|exact Hpre].
           ++ intros ([|a pre] & post & Heq & Hk & Hpre); simpl in Heq; injection Heq as Ha Hr.
              ** subst. lia.
              ** subst. inversion Hpre; subst. exists pre, post. auto.
        -- split.
           ++ intros H. injection H as <-. exists [], rest. split; [reflexivity|].
              split; [lia|constructor].
           ++ intros ([|a pre] & post & Heq & Hk & Hpre); simpl in Heq; injection Heq as Ha Hr.
              ** subst. reflexivity.
              ** subst. inversion Hpre as [|? ? Hv]; subst. lia.
      * rewrite IHs. split.
        -- intros (pre & post & -> & Hk & Hpre). exists (None :: pre), post.
           split; [reflexivity|]. split; [exact Hk|]. constructor; [exact I|exact Hpre].
        -- intros ([|a pre] & post & Heq & Hk & Hpre); simpl in Heq; [discriminate Heq|].
           injection Heq as Ha Hr. subst. inversion Hpre; subst. exists pre, post. auto.
    + destruct a as [v|].
      * destruct (v <=? 0)%Z eqn:E1; [|destruct (v >? total)%Z eqn:E2].
        -- rewrite IHn. split; [intros H; constructor; [lia|exact H]|intros H; inversion H; assumption].
        -- rewrite IHn. split; [intros H; constructor; [lia|exact H]|intros H; inversion H; assumption].
        -- split; [discriminate|]. intros H. inversion H as [|? ? Hv]; subst. lia.
      * rewrite IHn. split; [intros H; constructor; [exact I|exact H]|intros H; inversion H; assumption].
Qed.

(* ------------------------------------------------------------------ *)
(** ** Witnesses of the further properties *)


